(** * The assertion matchers of alsatian ([src/core/expect.ts])

    A shallow embedding of the [Matcher] class and of the fragment of
    JavaScript its methods run on, followed by the properties of the
    matchers that were checked against it. *)

From Stdlib Require Import ZArith Bool List String DecimalNat DecimalString Lia.
From stdpp Require Import list strings.
Import ListNotations.

Local Open Scope string_scope.
Local Open Scope nat_scope.

(** ** JavaScript values *)

(** Objects live in a heap and are denoted by their location; two objects
    are the same object when their locations are equal. *)
Definition loc := nat.

(** Numbers are IEEE doubles.  The matchers only compare them ([===],
    [==], [<], [>]), so the model keeps [NaN], which is unordered and
    unequal to itself, and the integers; [Num 0] stands for both zeros,
    which every operator used here identifies. *)
Inductive number :=
| NaN
| Num (z : Z).

Inductive value :=
| VUndefined
| VNull
| VBool (b : bool)
| VNumber (n : number)
| VString (s : string)
| VObject (l : loc).

(** What one call of a function under test does: it returns, or it throws
    a value. *)
Inductive completion :=
| Normal
| Abrupt (error : value).

(** An own data property. *)
Record property := {
  p_value : value;
  p_enumerable : bool
}.

(** An object: whether it is an array, its [[Call]] behaviour when it is a
    function, its prototype chain (nearest prototype first) and its own
    properties in the order [Object.keys] lists them. *)
Record object := {
  obj_isArray : bool;
  obj_call : option completion;
  obj_proto : list loc;
  obj_props : list (string * property)
}.

(** The part of the running program the matchers read: the heap, the
    prototype chains of the wrappers of primitive values, and the
    [TypeError] object the engine throws when a value that is not a
    function is called. *)
Record world := {
  heap : loc -> object;
  Boolean_prototype : list loc;
  Number_prototype : list loc;
  String_prototype : list loc;
  call_error : loc
}.

(** A regular expression, as far as [toMatch] uses it: the result of its
    [test] method on a string. *)
Record RegExp := {
  test : string -> bool
}.

(** A parameter of a declared type can still be [null] or [undefined]. *)
Inductive nullable (A : Type) :=
| IsNull
| IsUndefined
| Defined (a : A).
Arguments IsNull {A}.
Arguments IsUndefined {A}.
Arguments Defined {A} a.

(** ** Errors and outcomes *)

(** Modelled from the spec: the error classes of [./_errors], which is not
    among the sources.  Each constructor records the arguments the matcher
    passes to [new]; [TypeError] is the built-in one. *)
Inductive exn :=
| TypeError (message : string)
| ExactMatchError (actualValue expectedValue : value) (shouldMatch : bool)
| EqualMatchError (actualValue expectedValue : value) (shouldMatch : bool)
| RegexMatchError (actualValue : value) (expectedRegex : RegExp) (shouldMatch : bool)
| TruthyMatchError (actualValue : value) (shouldMatch : bool)
| ContentsMatchError (actualValue expectedContent : value) (shouldMatch : bool)
| LessThanMatchError (actualValue upperLimit : value) (shouldMatch : bool)
| GreaterThanMatchError (actualValue lowerLimit : value) (shouldMatch : bool)
| ErrorMatchError (actualError : value) (shouldMatch : bool)
    (expectedErrorType expectedErrorMessage : option value)
| FunctionCallMatchError (actualValue : value) (shouldMatch : bool)
    (args : option (list value))
| PropertySetMatchError (actualValue : value) (shouldMatch : bool)
    (setValue : option value).

Definition is_TypeError (e : exn) : bool :=
  match e with
  | TypeError _ => true
  | _ => false
  end.

(** The errors of the [MatchError] family. *)
Definition is_MatchError (e : exn) : bool := negb (is_TypeError e).

(** How a run ends: it returns, it throws, it is still running when the
    fuel is used up, or it leaves the modelled fragment of the language
    (a coercion through [ToString], [ToPrimitive] or a string-to-number
    conversion, or a call of a user function with arguments). *)
Inductive outcome (A : Type) :=
| Returns (a : A)
| Throws (e : exn)
| OutOfFuel
| Unmodelled.
Arguments Returns {A} a.
Arguments Throws {A} e.
Arguments OutOfFuel {A}.
Arguments Unmodelled {A}.

Definition bind {A B : Type} (m : outcome A) (k : A -> outcome B) : outcome B :=
  match m with
  | Returns a => k a
  | Throws e => Throws e
  | OutOfFuel => OutOfFuel
  | Unmodelled => Unmodelled
  end.

Notation "x <- m ;; k" := (bind m (fun x => k))
  (at level 100, m at next level, right associativity).

(** ** The operators the matchers use *)

Definition number_eqb (x y : number) : bool :=
  match x, y with
  | Num a, Num b => (a =? b)%Z
  | _, _ => false
  end.

Definition number_ltb (x y : number) : bool :=
  match x, y with
  | Num a, Num b => (a <? b)%Z
  | _, _ => false
  end.

(** [a === b] *)
Definition strict_equal (a b : value) : bool :=
  match a, b with
  | VUndefined, VUndefined => true
  | VNull, VNull => true
  | VBool x, VBool y => Bool.eqb x y
  | VNumber x, VNumber y => number_eqb x y
  | VString x, VString y => String.eqb x y
  | VObject x, VObject y => Nat.eqb x y
  | _, _ => false
  end.

(** [ToNumber], without the conversions of strings and objects. *)
Definition ToNumber (v : value) : outcome number :=
  match v with
  | VUndefined => Returns NaN
  | VNull => Returns (Num 0)
  | VBool b => Returns (Num (if b then 1 else 0))
  | VNumber n => Returns n
  | VString _ => Unmodelled
  | VObject _ => Unmodelled
  end.

(** [a == b]: operands of one type compare as [===] does, [null] and
    [undefined] equal each other and nothing else, booleans compare as
    numbers; the other mixed comparisons convert a string or an object. *)
Definition loose_equal (a b : value) : outcome bool :=
  match a, b with
  | (VUndefined | VNull), (VUndefined | VNull) => Returns true
  | (VUndefined | VNull), _ => Returns false
  | _, (VUndefined | VNull) => Returns false
  | VString _, VString _ => Returns (strict_equal a b)
  | VObject _, VObject _ => Returns (strict_equal a b)
  | (VString _ | VObject _), _ => Unmodelled
  | _, (VString _ | VObject _) => Unmodelled
  | _, _ =>
      x <- ToNumber a ;;
      y <- ToNumber b ;;
      Returns (number_eqb x y)
  end.

(** [a < b]: two strings compare by code units, anything else as
    numbers. *)
Definition less_than (a b : value) : outcome bool :=
  match a, b with
  | VString x, VString y => Returns (String.ltb x y)
  | _, _ =>
      x <- ToNumber a ;;
      y <- ToNumber b ;;
      Returns (number_ltb x y)
  end.

(** [ToBoolean] *)
Definition ToBoolean (v : value) : bool :=
  match v with
  | VUndefined => false
  | VNull => false
  | VBool b => b
  | VNumber NaN => false
  | VNumber (Num z) => negb (z =? 0)%Z
  | VString s => negb (String.eqb s "")
  | VObject _ => true
  end.

(** [typeof v] *)
Definition typeof (w : world) (v : value) : string :=
  match v with
  | VUndefined => "undefined"
  | VNull => "object"
  | VBool _ => "boolean"
  | VNumber _ => "number"
  | VString _ => "string"
  | VObject l =>
      match obj_call (heap w l) with
      | Some _ => "function"
      | None => "object"
      end
  end.

(** [Array.isArray(v)] *)
Definition Array_isArray (w : world) (v : value) : bool :=
  match v with
  | VObject l => obj_isArray (heap w l)
  | _ => false
  end.

(** The key of the array index [k]. *)
Definition index_key (k : nat) : string :=
  NilEmpty.string_of_uint (Nat.to_uint k).

Definition data (v : value) : property :=
  {| p_value := v; p_enumerable := true |}.

Definition hidden (v : value) : property :=
  {| p_value := v; p_enumerable := false |}.

(** The own properties of the wrapper of a string: its characters under
    their indices, and its length. *)
Fixpoint string_chars (k : nat) (s : string) : list (string * property) :=
  match s with
  | EmptyString => []
  | String c rest =>
      (index_key k, data (VString (String c EmptyString))) :: string_chars (S k) rest
  end.

Definition string_props (s : string) : list (string * property) :=
  string_chars 0 s ++ [("length", hidden (VNumber (Num (Z.of_nat (String.length s)))))].

Definition wrapper (proto : list loc) (props : list (string * property)) : object :=
  {| obj_isArray := false; obj_call := None; obj_proto := proto; obj_props := props |}.

(** [ToObject]: [null] and [undefined] have no object form. *)
Definition ToObject (w : world) (v : value) : outcome object :=
  match v with
  | VUndefined | VNull =>
      Throws (TypeError "Cannot convert undefined or null to object")
  | VBool _ => Returns (wrapper (Boolean_prototype w) [])
  | VNumber _ => Returns (wrapper (Number_prototype w) [])
  | VString s => Returns (wrapper (String_prototype w) (string_props s))
  | VObject l => Returns (heap w l)
  end.

Definition own_property (o : object) (key : string) : option property :=
  snd <$> find (fun kp => String.eqb (fst kp) key) (obj_props o).

(** The first property named [key] along a prototype chain. *)
Fixpoint inherited_property (w : world) (chain : list loc) (key : string)
  : option property :=
  match chain with
  | [] => None
  | p :: rest =>
      match own_property (heap w p) key with
      | Some pr => Some pr
      | None => inherited_property w rest key
      end
  end.

Definition find_property (w : world) (o : object) (key : string) : option property :=
  match own_property o key with
  | Some pr => Some pr
  | None => inherited_property w (obj_proto o) key
  end.

(** [key in o] *)
Definition object_has (w : world) (o : object) (key : string) : bool :=
  match find_property w o key with
  | Some _ => true
  | None => false
  end.

(** [o[key]] on an object *)
Definition object_get (w : world) (o : object) (key : string) : value :=
  match find_property w o key with
  | Some pr => p_value pr
  | None => VUndefined
  end.

(** [v[key]] and [v.key] on any value *)
Definition Get (w : world) (v : value) (key : string) : outcome value :=
  o <- ToObject w v ;;
  Returns (object_get w o key).

(** The own enumerable keys of an object. *)
Definition own_keys (o : object) : list string :=
  map fst (List.filter (fun kp => p_enumerable (snd kp)) (obj_props o)).

(** [Object.keys(v)] *)
Definition Object_keys (w : world) (v : value) : outcome (list string) :=
  o <- ToObject w v ;;
  Returns (own_keys o).

(** [f()]: calling a value that is not a function makes the engine throw
    its [TypeError]. *)
Definition Call (w : world) (f : value) : completion :=
  match f with
  | VObject l =>
      match obj_call (heap w l) with
      | Some c => c
      | None => Abrupt (VObject (call_error w))
      end
  | _ => Abrupt (VObject (call_error w))
  end.

(** [v instanceof C] *)
Definition instanceof (w : world) (v C : value) : outcome bool :=
  match C with
  | VObject c =>
      match obj_call (heap w c) with
      | None => Throws (TypeError "Right-hand side of 'instanceof' is not callable")
      | Some _ =>
          match v with
          | VObject l =>
              match object_get w (heap w c) "prototype" with
              | VObject p => Returns (existsb (Nat.eqb p) (obj_proto (heap w l)))
              | _ => Throws (TypeError "Function has non-object prototype in instanceof check")
              end
          | _ => Returns false
          end
      end
  | _ => Throws (TypeError "Right-hand side of 'instanceof' is not an object")
  end.

(** ** Built-in methods of arrays and strings *)

(** [ToLength(o.length)] *)
Definition length_of (w : world) (o : object) : outcome nat :=
  n <- ToNumber (object_get w o "length") ;;
  Returns (match n with
           | NaN => 0
           | Num z => Z.to_nat z
           end).

(** The elements an array method visits, each with its index: those
    present under an index below the length. *)
Definition elements (w : world) (o : object) (len : nat) : list (nat * value) :=
  flat_map
    (fun k =>
       if object_has w o (index_key k)
       then [(k, object_get w o (index_key k))]
       else [])
    (seq 0 len).

(** The elements a callback selects; the callback gets the element and
    its index. *)
Fixpoint select (callbackfn : value -> nat -> outcome bool)
  (items : list (nat * value)) : outcome (list value) :=
  match items with
  | [] => Returns []
  | (k, kValue) :: rest =>
      selected <- callbackfn kValue k ;;
      kept <- select callbackfn rest ;;
      Returns (if selected then kValue :: kept else kept)
  end.

(** [receiver.name(...)] where no built-in method applies: reading the
    property of [null] or [undefined] throws, and so does calling a
    property that is not a function; a method the program defines itself
    is outside the model. *)
Definition other_method {A : Type} (w : world) (receiver : value) (name : string)
  : outcome A :=
  o <- ToObject w receiver ;;
  match object_get w o name with
  | VObject f =>
      match obj_call (heap w f) with
      | Some _ => Unmodelled
      | None => Throws (TypeError (name ++ " is not a function"))
      end
  | _ => Throws (TypeError (name ++ " is not a function"))
  end.

(** [receiver.filter(callbackfn)], as the list of the elements of the new
    array; arrays carry [Array.prototype.filter]. *)
Definition filter_method (w : world) (receiver : value)
  (callbackfn : value -> nat -> outcome bool) : outcome (list value) :=
  match receiver with
  | VObject l =>
      if obj_isArray (heap w l)
      then len <- length_of w (heap w l) ;;
           select callbackfn (elements w (heap w l) len)
      else other_method w receiver "filter"
  | _ => other_method w receiver "filter"
  end.

Definition position (found : option nat) : value :=
  match found with
  | Some k => VNumber (Num (Z.of_nat k))
  | None => VNumber (Num (-1))
  end.

(** [receiver.indexOf(searchElement)]: [String.prototype.indexOf] on a
    string (a search for anything but a string goes through [ToString]),
    [Array.prototype.indexOf] on an array. *)
Definition indexOf (w : world) (receiver searchElement : value) : outcome value :=
  match receiver with
  | VString s =>
      match searchElement with
      | VString t => Returns (position (String.index 0 t s))
      | _ => Unmodelled
      end
  | VObject l =>
      if obj_isArray (heap w l)
      then len <- length_of w (heap w l) ;;
           Returns (position
                      (fst <$> find (fun ke => strict_equal searchElement (snd ke))
                                    (elements w (heap w l) len)))
      else other_method w receiver "indexOf"
  | _ => other_method w receiver "indexOf"
  end.

(** [regex.test(v)] *)
Definition RegExp_test (regex : RegExp) (v : value) : outcome bool :=
  match v with
  | VString s => Returns (test regex s)
  | _ => Unmodelled
  end.

(** ** The Matcher *)

(** [class Matcher]: the value under test and the polarity. *)
Record Matcher := {
  _actualValue : value;
  _shouldMatch : bool
}.

(** Matchers are objects too: a test holds a reference to its matcher,
    and the store gives the state of every matcher created so far. *)
Definition ref := nat.

Definition store := list Matcher.

(** A step of an assertion chain: it reads and updates the store. *)
Definition chain (A : Type) : Type := store -> outcome (A * store).

Definition chain_bind {A B : Type} (m : chain A) (k : A -> chain B) : chain B :=
  fun s =>
    match m s with
    | Returns (a, s') => k a s'
    | Throws e => Throws e
    | OutOfFuel => OutOfFuel
    | Unmodelled => Unmodelled
    end.

Notation "x <~ m ;; k" := (chain_bind m (fun x => k))
  (at level 100, m at next level, right associativity).

(** The members of [Matcher].  [not] updates the matcher in the store;
    the comparison methods only read [this] and take its state. *)
Module Matcher.

(** [constructor(actualValue)] *)
Definition constructor (actualValue : value) : Matcher :=
  {| _actualValue := actualValue; _shouldMatch := true |}.

(** [get not()] *)
Definition not (this : ref) : chain ref :=
  fun s =>
    match s !! this with
    | Some m =>
        Returns (this,
                 <[this := {| _actualValue := _actualValue m;
                              _shouldMatch := negb (_shouldMatch m) |}]> s)
    | None => Unmodelled
    end.

Definition toBe (this : Matcher) (expectedValue : value) : outcome unit :=
  if Bool.eqb (negb (strict_equal expectedValue (_actualValue this))) (_shouldMatch this)
  then Throws (ExactMatchError (_actualValue this) expectedValue (_shouldMatch this))
  else Returns tt.

(** The [for] loop of [_checkObjectsAreDeepEqual] over the keys not yet
    visited; [recur] is the recursive call. *)
Fixpoint compare_properties (recur : value -> value -> outcome bool) (w : world)
  (objectA objectB : value) (keys : list string) : outcome bool :=
  match keys with
  | [] => Returns true
  | objectAKey :: rest =>
      a <- Get w objectA objectAKey ;;
      b <- Get w objectB objectAKey ;;
      if negb (strict_equal a b)
      then
        if negb (String.eqb (typeof w a) "object")
        then Returns false
        else
          equal <- recur a b ;;
          if Bool.eqb equal false
          then Returns false
          else compare_properties recur w objectA objectB rest
      else compare_properties recur w objectA objectB rest
  end.

(** One call of [_checkObjectsAreDeepEqual] uses one unit of fuel. *)
Fixpoint _checkObjectsAreDeepEqual (fuel : nat) (w : world) (objectA objectB : value)
  : outcome bool :=
  match fuel with
  | 0 => OutOfFuel
  | S fuel' =>
      if negb (Bool.eqb (Array_isArray w objectA) (Array_isArray w objectB))
      then Returns false
      else
        objectAKeys <- Object_keys w objectA ;;
        objectBKeys <- Object_keys w objectB ;;
        if negb (length objectAKeys =? length objectBKeys)
        then Returns false
        else
          compare_properties (_checkObjectsAreDeepEqual fuel' w) w
            objectA objectB objectAKeys
  end.

Definition toEqual (fuel : nat) (w : world) (this : Matcher) (expectedValue : value)
  : outcome unit :=
  loose <- loose_equal expectedValue (_actualValue this) ;;
  if Bool.eqb (negb loose) (_shouldMatch this)
  then
    if negb (String.eqb (typeof w expectedValue) "object")
    then Throws (EqualMatchError (_actualValue this) expectedValue (_shouldMatch this))
    else
      deep <- _checkObjectsAreDeepEqual fuel w expectedValue (_actualValue this) ;;
      if negb (Bool.eqb deep (_shouldMatch this))
      then Throws (EqualMatchError (_actualValue this) expectedValue (_shouldMatch this))
      else Returns tt
  else Returns tt.

Definition toMatch (w : world) (this : Matcher) (regex : nullable RegExp)
  : outcome unit :=
  match regex with
  | IsNull | IsUndefined =>
      Throws (TypeError "toMatch regular expression must not be null or undefined.")
  | Defined r =>
      if negb (String.eqb (typeof w (_actualValue this)) "string")
      then Throws (TypeError "toMatch must only be used to match on strings.")
      else
        matched <- RegExp_test r (_actualValue this) ;;
        if Bool.eqb (negb matched) (_shouldMatch this)
        then Throws (RegexMatchError (_actualValue this) r (_shouldMatch this))
        else Returns tt
  end.

Definition toBeDefined (this : Matcher) : outcome unit :=
  if Bool.eqb (strict_equal (_actualValue this) VUndefined) (_shouldMatch this)
  then Throws (ExactMatchError (_actualValue this) VUndefined (negb (_shouldMatch this)))
  else Returns tt.

Definition toBeNull (this : Matcher) : outcome unit :=
  if Bool.eqb (negb (strict_equal (_actualValue this) VNull)) (_shouldMatch this)
  then Throws (ExactMatchError (_actualValue this) VNull (_shouldMatch this))
  else Returns tt.

Definition toBeTruthy (this : Matcher) : outcome unit :=
  if (ToBoolean (_actualValue this) && negb (_shouldMatch this))
     || (negb (ToBoolean (_actualValue this)) && _shouldMatch this)
  then Throws (TruthyMatchError (_actualValue this) (_shouldMatch this))
  else Returns tt.

Definition toContain (w : world) (this : Matcher) (expectedContent : value)
  : outcome unit :=
  found <- indexOf w (_actualValue this) expectedContent ;;
  if Bool.eqb (strict_equal found (VNumber (Num (-1)))) (_shouldMatch this)
  then Throws (ContentsMatchError (_actualValue this) expectedContent (_shouldMatch this))
  else Returns tt.

Definition toBeLessThan (this : Matcher) (upperLimit : value) : outcome unit :=
  less <- less_than (_actualValue this) upperLimit ;;
  if negb (Bool.eqb less (_shouldMatch this))
  then Throws (LessThanMatchError (_actualValue this) upperLimit (_shouldMatch this))
  else Returns tt.

Definition toBeGreaterThan (this : Matcher) (lowerLimit : value) : outcome unit :=
  greater <- less_than lowerLimit (_actualValue this) ;;
  if negb (Bool.eqb greater (_shouldMatch this))
  then Throws (GreaterThanMatchError (_actualValue this) lowerLimit (_shouldMatch this))
  else Returns tt.

Definition toThrow (w : world) (this : Matcher) : outcome unit :=
  let after (errorThrown : value) : outcome unit :=
    if _shouldMatch this && strict_equal errorThrown VUndefined
    then Throws (ErrorMatchError VUndefined (_shouldMatch this) None None)
    else Returns tt in
  match Call w (_actualValue this) with
  | Normal => after VUndefined
  | Abrupt error =>
      if negb (_shouldMatch this)
      then Throws (ErrorMatchError error (_shouldMatch this) None None)
      else after error
  end.

Definition toThrowError (w : world) (this : Matcher) (errorType errorMessage : value)
  : outcome unit :=
  let after (threwRightError : bool) (actualError : value) : outcome unit :=
    if Bool.eqb (negb threwRightError) (_shouldMatch this)
    then Throws (ErrorMatchError actualError (_shouldMatch this)
                   (Some errorType) (Some errorMessage))
    else Returns tt in
  match Call w (_actualValue this) with
  | Normal => after false VUndefined
  | Abrupt error =>
      isInstance <- instanceof w error errorType ;;
      if isInstance
      then
        message <- Get w error "message" ;;
        after (strict_equal message errorMessage) error
      else after false error
  end.

Definition toHaveBeenCalled (w : world) (this : Matcher) : outcome unit :=
  calls <- Get w (_actualValue this) "calls" ;;
  count <- Get w calls "length" ;;
  if Bool.eqb (strict_equal count (VNumber (Num 0))) (_shouldMatch this)
  then Throws (FunctionCallMatchError (_actualValue this) (_shouldMatch this) None)
  else Returns tt.

Definition toHaveBeenCalledWith (w : world) (this : Matcher) (args : list value)
  : outcome unit :=
  let args_length := VNumber (Num (Z.of_nat (length args))) in
  calls <- Get w (_actualValue this) "calls" ;;
  matching <-
    filter_method w calls
      (fun call _ =>
         callArgs <- Get w call "args" ;;
         same <-
           filter_method w callArgs
             (fun arg index => Returns (strict_equal arg (nth index args VUndefined))) ;;
         if length same =? length args
         then
           callArgs' <- Get w call "args" ;;
           count <- Get w callArgs' "length" ;;
           Returns (strict_equal count args_length)
         else Returns false) ;;
  if Bool.eqb (length matching =? 0) (_shouldMatch this)
  then Throws (FunctionCallMatchError (_actualValue this) (_shouldMatch this) (Some args))
  else Returns tt.

Definition toHaveBeenSet (w : world) (this : Matcher) : outcome unit :=
  setCalls <- Get w (_actualValue this) "setCalls" ;;
  count <- Get w setCalls "length" ;;
  if Bool.eqb (strict_equal count (VNumber (Num 0))) (_shouldMatch this)
  then Throws (PropertySetMatchError (_actualValue this) (_shouldMatch this) None)
  else Returns tt.

Definition toHaveBeenSetTo (w : world) (this : Matcher) (setValue : value)
  : outcome unit :=
  setCalls <- Get w (_actualValue this) "setCalls" ;;
  matching <-
    filter_method w setCalls
      (fun call _ =>
         callArgs <- Get w call "args" ;;
         first <- Get w callArgs (index_key 0) ;;
         Returns (strict_equal first setValue)) ;;
  if Bool.eqb (length matching =? 0) (_shouldMatch this)
  then Throws (PropertySetMatchError (_actualValue this) (_shouldMatch this) (Some setValue))
  else Returns tt.

End Matcher.

(** [Expect(actualValue)]: a new matcher, at a new reference. *)
Definition Expect (actualValue : value) : chain ref :=
  fun s => Returns (length s, (s ++ [Matcher.constructor actualValue])%list).

(** A call of a comparison method of [Matcher], with its arguments. *)
Inductive operation :=
| toBe (expectedValue : value)
| toEqual (expectedValue : value)
| toMatch (regex : nullable RegExp)
| toBeDefined
| toBeNull
| toBeTruthy
| toContain (expectedContent : value)
| toBeLessThan (upperLimit : value)
| toBeGreaterThan (lowerLimit : value)
| toThrow
| toThrowError (errorType errorMessage : value)
| toHaveBeenCalled
| toHaveBeenCalledWith (args : list value)
| toHaveBeenSet
| toHaveBeenSetTo (setValue : value).

Definition run (fuel : nat) (w : world) (op : operation) (this : Matcher)
  : outcome unit :=
  match op with
  | toBe expectedValue => Matcher.toBe this expectedValue
  | toEqual expectedValue => Matcher.toEqual fuel w this expectedValue
  | toMatch regex => Matcher.toMatch w this regex
  | toBeDefined => Matcher.toBeDefined this
  | toBeNull => Matcher.toBeNull this
  | toBeTruthy => Matcher.toBeTruthy this
  | toContain expectedContent => Matcher.toContain w this expectedContent
  | toBeLessThan upperLimit => Matcher.toBeLessThan this upperLimit
  | toBeGreaterThan lowerLimit => Matcher.toBeGreaterThan this lowerLimit
  | toThrow => Matcher.toThrow w this
  | toThrowError errorType errorMessage =>
      Matcher.toThrowError w this errorType errorMessage
  | toHaveBeenCalled => Matcher.toHaveBeenCalled w this
  | toHaveBeenCalledWith args => Matcher.toHaveBeenCalledWith w this args
  | toHaveBeenSet => Matcher.toHaveBeenSet w this
  | toHaveBeenSetTo setValue => Matcher.toHaveBeenSetTo w this setValue
  end.

(** [this.op(...)] on the matcher at reference [this]. *)
Definition call (fuel : nat) (w : world) (op : operation) (this : ref) : chain unit :=
  fun s =>
    match s !! this with
    | Some m =>
        r <- run fuel w op m ;;
        Returns (r, s)
    | None => Unmodelled
    end.

(** What the caller of an assertion chain sees of it. *)
Definition result {A : Type} (c : chain A) : outcome A :=
  r <- c [] ;;
  Returns (fst r).

(** ** Example worlds *)

Definition plain (proto : list loc) (props : list (string * value)) : object :=
  {| obj_isArray := false;
     obj_call := None;
     obj_proto := proto;
     obj_props := map (fun kv => (fst kv, data (snd kv))) props |}.

Definition function (proto : list loc) (behaviour : completion)
  (props : list (string * property)) : object :=
  {| obj_isArray := false;
     obj_call := Some behaviour;
     obj_proto := proto;
     obj_props := props |}.

Definition array (proto : list loc) (items : list value) : object :=
  {| obj_isArray := true;
     obj_call := None;
     obj_proto := proto;
     obj_props :=
       imap (fun k v => (index_key k, data v)) items
       ++ [("length", hidden (VNumber (Num (Z.of_nat (length items)))))] |}.

(** The built-in objects the examples use. *)
Definition Object_prototype : loc := 0.
Definition Function_prototype : loc := 1.
Definition Array_prototype : loc := 2.
Definition Error_prototype : loc := 3.
Definition Error_constructor : loc := 4.
Definition RangeError_prototype : loc := 5.
Definition RangeError_constructor : loc := 6.
Definition TypeError_prototype : loc := 7.
Definition TypeError_constructor : loc := 8.
Definition not_a_function : loc := 9.
Definition wrapper_prototype : loc := 10.

Definition error_class (prototype : loc) : object :=
  function [Function_prototype; Object_prototype] Normal
    [("prototype", hidden (VObject prototype))].

Definition error_instance (proto : list loc) (message : string) : object :=
  {| obj_isArray := false;
     obj_call := None;
     obj_proto := proto;
     obj_props := [("message", hidden (VString message))] |}.

Definition builtins (l : loc) : object :=
  match l with
  | 1 => function [Object_prototype] Normal []
  | 2 => array [Object_prototype] []
  | 3 => {| obj_isArray := false; obj_call := None; obj_proto := [Object_prototype];
            obj_props := [("message", hidden (VString ""))] |}
  | 4 => error_class Error_prototype
  | 5 => plain [Error_prototype; Object_prototype] []
  | 6 => error_class RangeError_prototype
  | 7 => plain [Error_prototype; Object_prototype] []
  | 8 => error_class TypeError_prototype
  | 9 => error_instance [TypeError_prototype; Error_prototype; Object_prototype]
           "this._actualValue is not a function"
  | 10 => plain [Object_prototype] []
  | _ => plain [] []
  end.

(** The world whose heap holds the built-in objects and, from location 20
    on, the given objects. *)
Definition world_of (objects : list object) : world :=
  {| heap := fun l =>
       if l <? 20 then builtins l
       else match objects !! (l - 20) with
            | Some o => o
            | None => plain [] []
            end;
     Boolean_prototype := [wrapper_prototype; Object_prototype];
     Number_prototype := [wrapper_prototype; Object_prototype];
     String_prototype := [wrapper_prototype; Object_prototype];
     call_error := not_a_function |}.

Definition object_literal := plain [Object_prototype].
Definition array_literal := array [Array_prototype; Object_prototype].
Definition arrow_function (behaviour : completion) : object :=
  function [Function_prototype; Object_prototype] behaviour [].

(** ** Deep equality, as a relation *)

Definition non_primitive (v : value) : bool :=
  match v with
  | VObject _ => true
  | _ => false
  end.

(** Deep equality in the words of the specification: the two values agree
    on being arrays, expose the same number of own enumerable keys, and
    under every key (of the first value, as the loop visits them) hold
    values that are strictly equal or, both being non-primitive, deep-equal
    in turn. *)
Inductive spec_deep_equal (w : world) : value -> value -> Prop :=
| spec_deep_equal_intro (A B : value) (oa ob : object) :
    Array_isArray w A = Array_isArray w B ->
    ToObject w A = Returns oa ->
    ToObject w B = Returns ob ->
    length (own_keys oa) = length (own_keys ob) ->
    (forall key, In key (own_keys oa) ->
       spec_same_or_deep_equal w (object_get w oa key) (object_get w ob key)) ->
    spec_deep_equal w A B
with spec_same_or_deep_equal (w : world) : value -> value -> Prop :=
| spec_same_value (a b : value) :
    strict_equal a b = true ->
    spec_same_or_deep_equal w a b
| spec_equal_objects (a b : value) :
    non_primitive a = true ->
    non_primitive b = true ->
    spec_deep_equal w a b ->
    spec_same_or_deep_equal w a b.

(** Deep equality as the code decides it: the recursion is entered when
    the value on the expected side has type ["object"], whatever the value
    on the other side is. *)
Inductive deep_equal (w : world) : value -> value -> Prop :=
| deep_equal_intro (A B : value) (oa ob : object) :
    Array_isArray w A = Array_isArray w B ->
    ToObject w A = Returns oa ->
    ToObject w B = Returns ob ->
    length (own_keys oa) = length (own_keys ob) ->
    (forall key, In key (own_keys oa) ->
       same_or_deep_equal w (object_get w oa key) (object_get w ob key)) ->
    deep_equal w A B
with same_or_deep_equal (w : world) : value -> value -> Prop :=
| same_value (a b : value) :
    strict_equal a b = true ->
    same_or_deep_equal w a b
| equal_objects (a b : value) :
    typeof w a = "object" ->
    deep_equal w a b ->
    same_or_deep_equal w a b.

Scheme deep_equal_mut := Induction for deep_equal Sort Prop
  with same_or_deep_equal_mut := Induction for same_or_deep_equal Sort Prop.

(** A value is non-cyclic when following own properties from it ends
    after a bounded number of steps. *)
Fixpoint within_depth (d : nat) (w : world) (v : value) {struct d} : bool :=
  match v with
  | VObject l =>
      match d with
      | 0 => false
      | S d' =>
          forallb (fun kp => within_depth d' w (p_value (snd kp)))
                  (obj_props (heap w l))
      end
  | _ => true
  end.

(** ** The worlds of the examples *)

Definition one : value := VNumber (Num 1).
Definition two : value := VNumber (Num 2).
Definition five : value := VNumber (Num 5).

(** 20: [{a:1, b:{c:2}}] with 21: [{c:2}]; 22 and 23: the same once more;
    24: [{a:1}]; 25: [{a:1, b:2}]. *)
Definition nested_world : world :=
  world_of
    [ object_literal [("a", one); ("b", VObject 21)];
      object_literal [("c", two)];
      object_literal [("a", one); ("b", VObject 23)];
      object_literal [("c", two)];
      object_literal [("a", one)];
      object_literal [("a", one); ("b", two)] ].

(** 20: [a] with [a.self = a]; 21: [b] with [b.self = b]. *)
Definition cyclic_world : world :=
  world_of
    [ object_literal [("self", VObject 20)];
      object_literal [("self", VObject 21)] ].

(** 20: [{f: function () {}}] with its function at 21; 22 and 23: the same
    once more; 24: [{a: {}}] with 25: [{}]; 26: [{a: 5}]. *)
Definition mixed_world : world :=
  world_of
    [ object_literal [("f", VObject 21)];
      arrow_function Normal;
      object_literal [("f", VObject 23)];
      arrow_function Normal;
      object_literal [("a", VObject 25)];
      object_literal [];
      object_literal [("a", five)] ].

(** 20: [{a: null}]; 21: [{a: 1}]; 22: [[]]. *)
Definition null_world : world :=
  world_of
    [ object_literal [("a", VNull)];
      object_literal [("a", one)];
      array_literal [] ].

(** 20: [() => { throw new RangeError("bad"); }], the error at 21;
    22: [() => { throw new RangeError("worse"); }], the error at 23;
    24: [() => { throw new TypeError("bad"); }], the error at 25;
    26: [() => {}]. *)
Definition throwing_world : world :=
  world_of
    [ arrow_function (Abrupt (VObject 21));
      error_instance [RangeError_prototype; Error_prototype; Object_prototype] "bad";
      arrow_function (Abrupt (VObject 23));
      error_instance [RangeError_prototype; Error_prototype; Object_prototype] "worse";
      arrow_function (Abrupt (VObject 25));
      error_instance [TypeError_prototype; Error_prototype; Object_prototype] "bad";
      arrow_function Normal ].

(** A regular expression that matches the strings starting with [prefix]. *)
Definition starts_with (prefix : string) : RegExp :=
  {| test := String.prefix prefix |}.

(** The error of [Object.keys(null)]. *)
Definition null_has_no_keys : exn :=
  TypeError "Cannot convert undefined or null to object".

(** The state [not] leaves a matcher in. *)
Definition negated (m : Matcher) : Matcher :=
  {| _actualValue := _actualValue m; _shouldMatch := negb (_shouldMatch m) |}.

(** The rule of the comparison methods: a method whose predicate has the
    value [holds] returns when that value is the polarity, and raises its
    error otherwise. *)
Definition polarity_rule (holds shouldMatch : bool) (failure : exn) : outcome unit :=
  if Bool.eqb holds shouldMatch then Returns tt else Throws failure.

(** ** Classes of operations and of errors *)

Definition is_NaN (v : value) : bool :=
  match v with
  | VNumber NaN => true
  | _ => false
  end.

(** The operations whose outcome is their predicate compared with the
    polarity: all but [toEqual] and [toThrow]. *)
Definition follows_rule (op : operation) : bool :=
  match op with
  | toEqual _ => false
  | toThrow => false
  | _ => true
  end.

(** The operations that put no demand on the actual value. *)
Definition takes_any_value (op : operation) : bool :=
  match op with
  | toBe _ => true
  | toBeDefined => true
  | toBeNull => true
  | toBeTruthy => true
  | toThrow => true
  | _ => false
  end.

(** The match error of an operation called on [this]: its class and what
    it carries of the matcher and of the arguments. *)
Definition own_error (op : operation) (this : Matcher) (e : exn) : Prop :=
  let actual := _actualValue this in
  let polarity := _shouldMatch this in
  match op with
  | toBe expectedValue => e = ExactMatchError actual expectedValue polarity
  | toEqual expectedValue => e = EqualMatchError actual expectedValue polarity
  | toMatch regex => exists r, regex = Defined r /\ e = RegexMatchError actual r polarity
  | toBeDefined => e = ExactMatchError actual VUndefined (negb polarity)
  | toBeNull => e = ExactMatchError actual VNull polarity
  | toBeTruthy => e = TruthyMatchError actual polarity
  | toContain expectedContent => e = ContentsMatchError actual expectedContent polarity
  | toBeLessThan upperLimit => e = LessThanMatchError actual upperLimit polarity
  | toBeGreaterThan lowerLimit => e = GreaterThanMatchError actual lowerLimit polarity
  | toThrow => exists error, e = ErrorMatchError error polarity None None
  | toThrowError errorType errorMessage =>
      exists error, e = ErrorMatchError error polarity (Some errorType) (Some errorMessage)
  | toHaveBeenCalled => e = FunctionCallMatchError actual polarity None
  | toHaveBeenCalledWith args => e = FunctionCallMatchError actual polarity (Some args)
  | toHaveBeenSet => e = PropertySetMatchError actual polarity None
  | toHaveBeenSetTo setValue => e = PropertySetMatchError actual polarity (Some setValue)
  end.

(** ** More worlds *)

(** 20: [() => { throw undefined; }]; 21: [[1, NaN, 2]];
    22: [{a: NaN}]; 23: [{a: NaN}] once more. *)
Definition edge_world : world :=
  world_of
    [ arrow_function (Abrupt VUndefined);
      array_literal [one; VNumber NaN; two];
      object_literal [("a", VNumber NaN)];
      object_literal [("a", VNumber NaN)] ].

(** ** Spies, as the matchers read them *)

(** [v] is an array written as a literal, with the items [items]. *)
Definition is_array_of (w : world) (v : value) (items : list value) : Prop :=
  exists l proto, v = VObject l /\ heap w l = array proto items.

(** [v] records one call with the arguments [args]: [v.args] is the array
    of the arguments. *)
Definition is_call_with (w : world) (v : value) (args : list value) : Prop :=
  exists argsArray,
    Get w v "args" = Returns argsArray /\ is_array_of w argsArray args.

(** [v] holds under [field] the array of the records of [calls], oldest
    first. *)
Definition has_recorded (w : world) (field : string) (v : value)
  (calls : list (list value)) : Prop :=
  exists callsArray records,
    Get w v field = Returns callsArray
    /\ is_array_of w callsArray records
    /\ Forall2 (is_call_with w) records calls.

(** The arguments of a call are the expected ones: as many, and strictly
    equal position by position. *)
Definition same_arguments (callArgs args : list value) : Prop :=
  Forall2 (fun x y => strict_equal x y = true) callArgs args.

(** What the callback of [toHaveBeenCalledWith] computes on a call with
    the arguments [callArgs]. *)
Definition arguments_match (callArgs args : list value) : bool :=
  (length (List.filter
             (fun kv => strict_equal (snd kv) (nth (fst kv) args VUndefined))
             (combine (seq 0 (length callArgs)) callArgs))
   =? length args)
  && (length callArgs =? length args).

(** 20: a spy called with [(1, "a")] and then with [()], its [calls] at 21
    and the records at 22 to 25; 26: a property spy set to [5], its
    [setCalls] at 27 and the record at 28 and 29; 30: a spy never called,
    its [calls] at 31. *)
Definition spy_world : world :=
  world_of
    [ object_literal [("calls", VObject 21)];
      array_literal [VObject 22; VObject 24];
      object_literal [("args", VObject 23)];
      array_literal [one; VString "a"];
      object_literal [("args", VObject 25)];
      array_literal [];
      object_literal [("setCalls", VObject 27)];
      array_literal [VObject 28];
      object_literal [("args", VObject 29)];
      array_literal [five];
      object_literal [("calls", VObject 31)];
      array_literal [] ].

(** ** Reaching [null] on the deep path *)

(** The comparison of [A] with [B] comes to call [Object.keys(null)]:
    [A] is [null] and [B] is not an array, or the two values agree on being
    arrays and on the number of keys, the keys visited first compare
    equal, and the next key holds values that are not strictly equal, the
    expected one of type ["object"], whose comparison comes to that call
    in turn. *)
Inductive reaches_null (w : world) : value -> value -> Prop :=
| null_here (B : value) :
    Array_isArray w B = false ->
    reaches_null w VNull B
| null_below (A B : value) (oa ob : object) (before after : list string)
    (key : string) :
    Array_isArray w A = Array_isArray w B ->
    ToObject w A = Returns oa ->
    ToObject w B = Returns ob ->
    length (own_keys oa) = length (own_keys ob) ->
    own_keys oa = (before ++ key :: after)%list ->
    (forall k, In k before ->
       same_or_deep_equal w (object_get w oa k) (object_get w ob k)) ->
    strict_equal (object_get w oa key) (object_get w ob key) = false ->
    typeof w (object_get w oa key) = "object" ->
    reaches_null w (object_get w oa key) (object_get w ob key) ->
    reaches_null w A B.

(** 20: [{o: {a: null}}] with 21: [{a: null}]; 22: [{o: {a: 1}}] with
    23: [{a: 1}]; 24: [{x: {}, a: null}] with 25: [{}];
    26: [{x: {}, a: 1}] with 27: [{}]. *)
Definition deep_null_world : world :=
  world_of
    [ object_literal [("o", VObject 21)];
      object_literal [("a", VNull)];
      object_literal [("o", VObject 23)];
      object_literal [("a", one)];
      object_literal [("x", VObject 25); ("a", VNull)];
      object_literal [];
      object_literal [("x", VObject 27); ("a", one)];
      object_literal [] ].

(** The match error of an operation called on [this], in full: as
    [own_error], and for [toThrow] and [toThrowError] with the error they
    caught. *)
Definition own_error_of (w : world) (op : operation) (this : Matcher) (e : exn) : Prop :=
  let polarity := _shouldMatch this in
  match op with
  | toThrow =>
      e = ErrorMatchError
            (match Call w (_actualValue this) with
             | Abrupt error => if polarity then VUndefined else error
             | Normal => VUndefined
             end) polarity None None
  | toThrowError errorType errorMessage =>
      e = ErrorMatchError
            (match Call w (_actualValue this) with
             | Abrupt error => error
             | Normal => VUndefined
             end) polarity (Some errorType) (Some errorMessage)
  | _ => own_error op this e
  end.

(** * Properties *)

(** ** Fuel *)

Lemma compare_properties_more_fuel (recur recur' : value -> value -> outcome bool)
  (w : world) (A B : value) (keys : list string) (r : outcome bool) :
  (forall a b r', recur a b = r' -> r' <> OutOfFuel -> recur' a b = r') ->
  Matcher.compare_properties recur w A B keys = r ->
  r <> OutOfFuel ->
  Matcher.compare_properties recur' w A B keys = r.
Proof.
  intros Hrecur.
  induction keys as [|key rest IH]; simpl; intros Hr Hne; [exact Hr|].
  destruct (Get w A key) as [a| | |]; simpl in *; try exact Hr.
  destruct (Get w B key) as [b| | |]; simpl in *; try exact Hr.
  destruct (negb (strict_equal a b)); [|now apply IH].
  destruct (negb (String.eqb (typeof w a) "object")); [exact Hr|].
  destruct (recur a b) as [equal| | |] eqn:Hab; simpl in Hr.
  - rewrite (Hrecur a b (Returns equal) Hab) by discriminate. simpl.
    destruct (Bool.eqb equal false); [exact Hr|now apply IH].
  - rewrite (Hrecur a b _ Hab) by discriminate. exact Hr.
  - congruence.
  - rewrite (Hrecur a b _ Hab) by discriminate. exact Hr.
Qed.

(** A comparison that ends within some fuel ends the same way with more. *)
Lemma checkObjectsAreDeepEqual_more_fuel (w : world) (n m : nat) :
  n <= m ->
  forall (A B : value) (r : outcome bool),
    Matcher._checkObjectsAreDeepEqual n w A B = r ->
    r <> OutOfFuel ->
    Matcher._checkObjectsAreDeepEqual m w A B = r.
Proof.
  revert m. induction n as [|n IH]; intros m Hle A B r Hr Hne.
  - simpl in Hr. congruence.
  - destruct m as [|m]; [lia|].
    simpl in *.
    destruct (negb (Bool.eqb (Array_isArray w A) (Array_isArray w B))); [exact Hr|].
    destruct (Object_keys w A) as [ka| | |]; simpl in *; try exact Hr.
    destruct (Object_keys w B) as [kb| | |]; simpl in *; try exact Hr.
    destruct (negb (length ka =? length kb)); [exact Hr|].
    eapply compare_properties_more_fuel; [|exact Hr|exact Hne].
    intros a b r' Hab Hr'. apply IH; [lia|exact Hab|exact Hr'].
Qed.

(** ** Deep equality: the code and the relation *)

Lemma Get_of_object (w : world) (v : value) (o : object) (key : string) :
  ToObject w v = Returns o ->
  Get w v key = Returns (object_get w o key).
Proof. intros H. unfold Get. rewrite H. reflexivity. Qed.

Lemma Object_keys_of_object (w : world) (v : value) (o : object) :
  ToObject w v = Returns o ->
  Object_keys w v = Returns (own_keys o).
Proof. intros H. unfold Object_keys. rewrite H. reflexivity. Qed.

Lemma Object_keys_returns (w : world) (v : value) (keys : list string) :
  Object_keys w v = Returns keys ->
  exists o, ToObject w v = Returns o /\ keys = own_keys o.
Proof.
  unfold Object_keys. destruct (ToObject w v) as [o| | |]; simpl; try discriminate.
  intros [= <-]. now exists o.
Qed.

Section Soundness.

Variable w : world.
Variable recur : value -> value -> outcome bool.
Hypothesis recur_sound : forall a b, recur a b = Returns true -> deep_equal w a b.

Lemma compare_properties_sound (A B : value) (oa ob : object) (keys : list string) :
  ToObject w A = Returns oa ->
  ToObject w B = Returns ob ->
  Matcher.compare_properties recur w A B keys = Returns true ->
  forall key, In key keys ->
    same_or_deep_equal w (object_get w oa key) (object_get w ob key).
Proof.
  intros HA HB.
  induction keys as [|k rest IH]; simpl; intros Hrun key Hin; [contradiction|].
  rewrite (Get_of_object _ _ _ _ HA), (Get_of_object _ _ _ _ HB) in Hrun.
  simpl in Hrun.
  destruct (strict_equal (object_get w oa k) (object_get w ob k)) eqn:Hsame;
    simpl in Hrun.
  - destruct Hin as [<-|Hin]; [now apply same_value|now apply IH].
  - destruct (String.eqb (typeof w (object_get w oa k)) "object") eqn:Htype;
      simpl in Hrun; [|discriminate].
    destruct (recur (object_get w oa k) (object_get w ob k)) as [[|]| | |] eqn:Hrec;
      simpl in Hrun; try discriminate.
    destruct Hin as [<-|Hin]; [|now apply IH].
    apply equal_objects; [now apply String.eqb_eq|now apply recur_sound].
Qed.

End Soundness.

Lemma checkObjectsAreDeepEqual_sound (w : world) (fuel : nat) :
  forall A B,
    Matcher._checkObjectsAreDeepEqual fuel w A B = Returns true ->
    deep_equal w A B.
Proof.
  induction fuel as [|fuel IH]; intros A B Hrun; simpl in Hrun; [discriminate|].
  destruct (Bool.eqb (Array_isArray w A) (Array_isArray w B)) eqn:Harr;
    simpl in Hrun; [|discriminate].
  destruct (Object_keys w A) as [ka| | |] eqn:HkA; simpl in Hrun; try discriminate.
  destruct (Object_keys w B) as [kb| | |] eqn:HkB; simpl in Hrun; try discriminate.
  destruct (length ka =? length kb) eqn:Hlen; simpl in Hrun; [|discriminate].
  apply Object_keys_returns in HkA as (oa & HA & ->).
  apply Object_keys_returns in HkB as (ob & HB & ->).
  apply deep_equal_intro with oa ob; trivial.
  - now apply Bool.eqb_prop.
  - now apply Nat.eqb_eq.
  - now apply compare_properties_sound with (recur := Matcher._checkObjectsAreDeepEqual fuel w) (A := A) (B := B).
Qed.

Lemma compare_properties_complete (w : world) (A B : value) (oa ob : object)
  (keys : list string) :
  ToObject w A = Returns oa ->
  ToObject w B = Returns ob ->
  (forall key, In key keys ->
     strict_equal (object_get w oa key) (object_get w ob key) = true
     \/ (typeof w (object_get w oa key) = "object"
         /\ exists fuel,
              Matcher._checkObjectsAreDeepEqual fuel w
                (object_get w oa key) (object_get w ob key) = Returns true)) ->
  exists fuel,
    Matcher.compare_properties (Matcher._checkObjectsAreDeepEqual fuel w) w A B keys
    = Returns true.
Proof.
  intros HA HB.
  induction keys as [|k rest IH]; intros Hkeys; [now exists 0|].
  destruct IH as [n Hn]; [intros key Hin; apply Hkeys; now right|].
  assert (Hraise : forall m, n <= m ->
            Matcher.compare_properties (Matcher._checkObjectsAreDeepEqual m w) w A B rest
            = Returns true).
  { intros m Hle. eapply compare_properties_more_fuel; [|exact Hn|discriminate].
    intros a b r' Hab Hr'. now apply checkObjectsAreDeepEqual_more_fuel with n. }
  simpl.
  rewrite (Get_of_object _ _ _ _ HA), (Get_of_object _ _ _ _ HB). simpl.
  destruct (strict_equal (object_get w oa k) (object_get w ob k)) eqn:Hsame; simpl.
  - exists n. exact Hn.
  - destruct (Hkeys k) as [Hk|[Htype [n' Hn']]]; [now left|congruence|].
    rewrite Htype. simpl.
    exists (Nat.max n n').
    rewrite (checkObjectsAreDeepEqual_more_fuel w n' (Nat.max n n')
               ltac:(lia) _ _ _ Hn') by discriminate.
    simpl. apply Hraise. lia.
Qed.

Lemma checkObjectsAreDeepEqual_complete (w : world) (A B : value) :
  deep_equal w A B ->
  exists fuel, Matcher._checkObjectsAreDeepEqual fuel w A B = Returns true.
Proof.
  intros H.
  induction H using deep_equal_mut with
    (P0 := fun a b _ =>
             strict_equal a b = true
             \/ (typeof w a = "object"
                 /\ exists fuel,
                      Matcher._checkObjectsAreDeepEqual fuel w a b = Returns true)).
  - destruct (compare_properties_complete w A B oa ob (own_keys oa)) as [n Hn];
      trivial.
    exists (S n). simpl.
    rewrite e, Bool.eqb_reflx. simpl.
    rewrite (Object_keys_of_object _ _ _ e0), (Object_keys_of_object _ _ _ e1). simpl.
    rewrite e2, Nat.eqb_refl. simpl. exact Hn.
  - now left.
  - right. now split.
Qed.



(** ** Chains *)

(** An assertion on a fresh matcher runs the method on the state the
    constructor sets up. *)
Lemma result_Expect_call (fuel : nat) (w : world) (v : value) (op : operation) :
  result (m <~ Expect v ;; call fuel w op m) = run fuel w op (Matcher.constructor v).
Proof.
  unfold result, chain_bind, Expect, call. simpl.
  destruct (run fuel w op (Matcher.constructor v)) as [[]| | |]; reflexivity.
Qed.

Lemma result_Expect_not_call (fuel : nat) (w : world) (v : value) (op : operation) :
  result (m <~ Expect v ;; n <~ Matcher.not m ;; call fuel w op n)
  = run fuel w op {| _actualValue := v; _shouldMatch := false |}.
Proof.
  unfold result, chain_bind, Expect, call, Matcher.not. simpl.
  destruct (run fuel w op _) as [[]| | |]; reflexivity.
Qed.

(** ** Termination on non-cyclic values *)

Lemma own_keys_own_property (o : object) (key : string) :
  In key (own_keys o) ->
  exists pr, own_property o key = Some pr /\ In pr (map snd (obj_props o)).
Proof.
  unfold own_keys, own_property. intros Hin.
  apply in_map_iff in Hin as ([k pr] & Hk & Hin). simpl in Hk. subst k.
  apply filter_In in Hin as [Hin _].
  destruct (find (fun kp => String.eqb (fst kp) key) (obj_props o)) as [[k' pr']|] eqn:Hfind.
  - exists pr'. split; [reflexivity|].
    apply find_some in Hfind as [Hin' _]. apply in_map_iff. now exists (k', pr').
  - apply find_none with (x := (key, pr)) in Hfind; [|exact Hin].
    simpl in Hfind. now rewrite String.eqb_refl in Hfind.
Qed.

Lemma compare_properties_ends (recur : value -> value -> outcome bool) (w : world)
  (A B : value) (keys : list string) :
  (forall key a b,
     In key keys ->
     Get w A key = Returns a ->
     Get w B key = Returns b ->
     typeof w a = "object" ->
     recur a b <> OutOfFuel) ->
  Matcher.compare_properties recur w A B keys <> OutOfFuel.
Proof.
  induction keys as [|key rest IH]; intros Hrecur; simpl; [discriminate|].
  assert (Hrest : Matcher.compare_properties recur w A B rest <> OutOfFuel).
  { apply IH. intros k a b Hin. apply Hrecur. now right. }
  destruct (Get w A key) as [a| | |] eqn:HA; simpl; try discriminate.
  - destruct (Get w B key) as [b| | |] eqn:HB; simpl; try discriminate.
    + destruct (negb (strict_equal a b)); [|exact Hrest].
      destruct (String.eqb (typeof w a) "object") eqn:Htype; simpl; [|discriminate].
      apply String.eqb_eq in Htype.
      specialize (Hrecur key a b (or_introl eq_refl) HA HB Htype).
      destruct (recur a b) as [[|]| | |]; simpl; congruence.
    + destruct B; simpl in HB; discriminate HB.
  - destruct A; simpl in HA; discriminate HA.
Qed.

(** A comparison whose expected value is non-cyclic ends: a depth bound on
    the value bounds the number of nested calls. *)
Lemma checkObjectsAreDeepEqual_terminates (w : world) (d : nat) :
  forall A B,
    typeof w A = "object" ->
    within_depth d w A = true ->
    Matcher._checkObjectsAreDeepEqual (S d) w A B <> OutOfFuel.
Proof.
  induction d as [|d IH]; intros A B Htype Hdepth.
  - destruct A; try discriminate. simpl.
    destruct (Array_isArray w B); discriminate.
  - change (Matcher._checkObjectsAreDeepEqual (S (S d)) w A B)
      with (if negb (Bool.eqb (Array_isArray w A) (Array_isArray w B))
            then Returns false
            else
              objectAKeys <- Object_keys w A ;;
              objectBKeys <- Object_keys w B ;;
              if negb (length objectAKeys =? length objectBKeys)
              then Returns false
              else Matcher.compare_properties
                     (Matcher._checkObjectsAreDeepEqual (S d) w) w A B objectAKeys).
    destruct (negb (Bool.eqb (Array_isArray w A) (Array_isArray w B))); [discriminate|].
    destruct A as [| | | | |l]; try discriminate.
    cbn [Object_keys ToObject bind].
    destruct (Object_keys w B) as [kb| | |] eqn:HkB; cbn [bind]; try discriminate.
    + destruct (negb (length (own_keys (heap w l)) =? length kb)); [discriminate|].
      apply compare_properties_ends.
      intros key a b Hin Ha _ Hobj. apply IH; [exact Hobj|].
      cbn [Get ToObject bind] in Ha. injection Ha as <-.
      apply own_keys_own_property in Hin as (pr & Hown & Hin).
      unfold object_get, find_property. rewrite Hown.
      cbn [within_depth] in Hdepth.
      rewrite forallb_forall in Hdepth.
      apply in_map_iff in Hin as (kp & <- & Hin). now apply Hdepth.
    + destruct B; simpl in HkB; discriminate HkB.
Qed.

(** ** Non-termination on a cycle *)

Lemma cyclic_world_not_within_depth (d : nat) :
  within_depth d cyclic_world (VObject 20) = false
  /\ within_depth d cyclic_world (VObject 21) = false.
Proof.
  induction d as [|d [IH0 IH1]]; [split; reflexivity|].
  split; simpl; [rewrite IH0|rewrite IH1]; reflexivity.
Qed.

(** C8: [toEqual] has no cycle guard.  With [a.self = a] and [b.self = b],
    two distinct objects of the same shape, the comparison of [a] with [b]
    calls itself on the same pair again, so it is still running after any
    number of calls. *)
Theorem toEqual_runs_forever_on_cycle :
  (forall d, within_depth d cyclic_world (VObject 20) = false)
  /\ (forall d, within_depth d cyclic_world (VObject 21) = false)
  /\ (forall fuel,
        Matcher._checkObjectsAreDeepEqual fuel cyclic_world (VObject 21) (VObject 20)
        = OutOfFuel)
  /\ (forall fuel,
        result (m <~ Expect (VObject 20) ;;
                call fuel cyclic_world (toEqual (VObject 21)) m) = OutOfFuel).
Proof.
  assert (Hloop : forall fuel,
            Matcher._checkObjectsAreDeepEqual fuel cyclic_world (VObject 21) (VObject 20)
            = OutOfFuel).
  { induction fuel as [|fuel IH]; [reflexivity|].
    change (Matcher._checkObjectsAreDeepEqual (S fuel) cyclic_world
              (VObject 21) (VObject 20))
      with (equal <- Matcher._checkObjectsAreDeepEqual fuel cyclic_world
                       (VObject 21) (VObject 20) ;;
            if Bool.eqb equal false then Returns false else Returns true).
    rewrite IH. reflexivity. }
  repeat split.
  - intros d. apply cyclic_world_not_within_depth.
  - intros d. apply cyclic_world_not_within_depth.
  - exact Hloop.
  - intros fuel. rewrite result_Expect_call.
    change (run fuel cyclic_world (toEqual (VObject 21)) (Matcher.constructor (VObject 20)))
      with (deep <- Matcher._checkObjectsAreDeepEqual fuel cyclic_world
                      (VObject 21) (VObject 20) ;;
            if negb (Bool.eqb deep true)
            then Throws (EqualMatchError (VObject 20) (VObject 21) true)
            else Returns tt).
    rewrite Hloop. reflexivity.
Qed.

(** ** Reflexivity *)

Lemma number_eqb_refl (z : Z) : number_eqb (Num z) (Num z) = true.
Proof. simpl. apply Z.eqb_refl. Qed.

Lemma loose_equal_same (v : value) :
  v <> VNumber NaN ->
  loose_equal v v = Returns true.
Proof.
  destruct v as [| |b|[|z]|s|l]; intros Hv; simpl; try reflexivity.
  - destruct b; reflexivity.
  - congruence.
  - now rewrite Z.eqb_refl.
  - now rewrite String.eqb_refl.
  - now rewrite Nat.eqb_refl.
Qed.

(** A value that is loosely equal to the expected one passes [toEqual]
    under the default polarity without entering the deep path. *)
Lemma toEqual_loosely_equal (fuel : nat) (w : world) (actual expected : value) :
  loose_equal expected actual = Returns true ->
  Matcher.toEqual fuel w (Matcher.constructor actual) expected = Returns tt.
Proof.
  intros H. unfold Matcher.toEqual, Matcher.constructor.
  cbn [_actualValue _shouldMatch]. rewrite H. reflexivity.
Qed.

(** C4, as stated, fails: [NaN] is a non-cyclic value and
    [Expect(NaN).toEqual(NaN)] raises. *)
Lemma toEqual_not_reflexive_on_NaN :
  within_depth 0 nested_world (VNumber NaN) = true
  /\ result (m <~ Expect (VNumber NaN) ;;
             call 1 nested_world (toEqual (VNumber NaN)) m)
     = Throws (EqualMatchError (VNumber NaN) (VNumber NaN) true).
Proof. split; reflexivity. Qed.

(** C4 (amended): [toEqual] is reflexive on every non-cyclic value other
    than [NaN], nested arrays and objects included: [Expect(v).toEqual(v)]
    returns. *)
Theorem toEqual_reflexive (fuel : nat) (w : world) (v : value) (d : nat) :
  within_depth d w v = true ->
  v <> VNumber NaN ->
  result (m <~ Expect v ;; call fuel w (toEqual v) m) = Returns tt.
Proof.
  intros _ Hv. rewrite result_Expect_call. simpl.
  apply toEqual_loosely_equal. now apply loose_equal_same.
Qed.

Lemma toEqual_reflexive_witness :
  within_depth 2 nested_world (VObject 20) = true
  /\ VObject 20 <> VNumber NaN
  /\ result (m <~ Expect (VObject 20) ;;
             call 0 nested_world (toEqual (VObject 20)) m) = Returns tt.
Proof.
  split; [reflexivity|]. split; [discriminate|].
  apply (toEqual_reflexive 0 nested_world (VObject 20) 2); [reflexivity|discriminate].
Defined.

(** ** [null] on the deep path *)

Lemma checkObjectsAreDeepEqual_null (fuel : nat) (w : world) (B : value) :
  Array_isArray w B = false ->
  Matcher._checkObjectsAreDeepEqual (S fuel) w VNull B = Throws null_has_no_keys.
Proof. intros HB. simpl. rewrite HB. reflexivity. Qed.

Lemma compare_properties_skip (recur : value -> value -> outcome bool) (w : world)
  (A B : loc) (before rest : list string) :
  (forall k, In k before ->
     strict_equal (object_get w (heap w A) k) (object_get w (heap w B) k) = true) ->
  Matcher.compare_properties recur w (VObject A) (VObject B) (before ++ rest)
  = Matcher.compare_properties recur w (VObject A) (VObject B) rest.
Proof.
  induction before as [|k before IH]; intros Hsame; [reflexivity|].
  simpl. rewrite (Hsame k) by now left. simpl.
  apply IH. intros k' Hin. apply Hsame. now right.
Qed.

(** C10, as stated, fails: an array is loosely unequal to [null], and
    [Expect([]).toEqual(null)] raises the [EqualMatchError], because the
    comparison of array-ness comes before [Object.keys]. *)
Lemma toEqual_null_against_array :
  loose_equal VNull (VObject 22) = Returns false
  /\ result (m <~ Expect (VObject 22) ;; call 1 null_world (toEqual VNull) m)
     = Throws (EqualMatchError (VObject 22) VNull true).
Proof. split; reflexivity. Qed.

Lemma compare_properties_app (recur : value -> value -> outcome bool) (w : world)
  (A B : value) (first rest : list string) :
  Matcher.compare_properties recur w A B (first ++ rest)
  = (passed <- Matcher.compare_properties recur w A B first ;;
     if passed
     then Matcher.compare_properties recur w A B rest
     else Returns false).
Proof.
  induction first as [|key first IH]; [reflexivity|].
  cbn [app Matcher.compare_properties].
  destruct (Get w A key) as [a| | |]; cbn [bind]; try reflexivity.
  destruct (Get w B key) as [b| | |]; cbn [bind]; try reflexivity.
  destruct (negb (strict_equal a b)); [|exact IH].
  destruct (negb (String.eqb (typeof w a) "object")); [reflexivity|].
  destruct (recur a b) as [[|]| | |]; cbn [bind Bool.eqb]; try reflexivity.
  exact IH.
Qed.

Lemma checkObjectsAreDeepEqual_step (fuel : nat) (w : world) (A B : value) :
  Matcher._checkObjectsAreDeepEqual (S fuel) w A B
  = if negb (Bool.eqb (Array_isArray w A) (Array_isArray w B))
    then Returns false
    else
      objectAKeys <- Object_keys w A ;;
      objectBKeys <- Object_keys w B ;;
      if negb (length objectAKeys =? length objectBKeys)
      then Returns false
      else Matcher.compare_properties (Matcher._checkObjectsAreDeepEqual fuel w) w
             A B objectAKeys.
Proof. reflexivity. Qed.

(** With enough fuel, a comparison that comes to [Object.keys(null)]
    raises its [TypeError]. *)
Lemma reaches_null_raises (w : world) (A B : value) :
  reaches_null w A B ->
  exists enough,
    forall fuel, enough <= fuel ->
      Matcher._checkObjectsAreDeepEqual fuel w A B = Throws null_has_no_keys.
Proof.
  induction 1 as [B HB
                 |A B oa ob before after key Harr HA HB Hlen Hkeys Hbefore Hdiff
                    Htype Hbelow [enough IH]].
  - exists 1. intros [|fuel] Hle; [lia|]. now apply checkObjectsAreDeepEqual_null.
  - destruct (compare_properties_complete w A B oa ob before HA HB) as [passing Hpass].
    { intros k Hin. specialize (Hbefore k Hin).
      inversion Hbefore as [a b Hsame|a b Hobject Hdeep]; subst; [now left|].
      right. split; [exact Hobject|]. now apply checkObjectsAreDeepEqual_complete. }
    exists (S (Nat.max enough passing)). intros [|fuel] Hle; [lia|].
    rewrite checkObjectsAreDeepEqual_step.
    rewrite Harr, Bool.eqb_reflx. cbn [negb].
    rewrite (Object_keys_of_object _ _ _ HA), (Object_keys_of_object _ _ _ HB).
    cbn [bind]. rewrite Hlen, Nat.eqb_refl. cbn [negb].
    rewrite Hkeys, compare_properties_app.
    rewrite (compare_properties_more_fuel
               (Matcher._checkObjectsAreDeepEqual passing w)
               (Matcher._checkObjectsAreDeepEqual fuel w) w A B before (Returns true));
      [|intros a b r Hab Hr;
        now apply checkObjectsAreDeepEqual_more_fuel with passing; [lia| |]
       |exact Hpass|discriminate].
    cbn [bind Matcher.compare_properties].
    rewrite (Get_of_object _ _ _ _ HA), (Get_of_object _ _ _ _ HB). cbn [bind].
    rewrite Hdiff, Htype. cbn [negb].
    change (String.eqb "object" "object") with true. cbn [negb].
    rewrite IH by lia. reflexivity.
Qed.

(** C10 (amended): under the default polarity, when the expected value is
    [null] and the actual value is loosely unequal to it and not an array,
    [toEqual] raises the [TypeError] of [Object.keys(null)] and no
    [EqualMatchError]; so it does on any two values that are not loosely
    equal when the comparison comes, at any depth, to an expected property
    that is [null] while the actual property is not strictly equal to it
    and not an array: on the way the values agree on being arrays and on
    the number of keys, and the keys visited earlier compare equal. *)
Theorem toEqual_null_raises_TypeError :
  (forall fuel w actual,
     loose_equal VNull actual = Returns false ->
     Array_isArray w actual = false ->
     result (m <~ Expect actual ;; call (S fuel) w (toEqual VNull) m)
     = Throws null_has_no_keys)
  /\ (forall w expected actual,
        loose_equal expected actual = Returns false ->
        typeof w expected = "object" ->
        reaches_null w expected actual ->
        exists enough,
          forall fuel, enough <= fuel ->
            result (m <~ Expect actual ;; call fuel w (toEqual expected) m)
            = Throws null_has_no_keys)
  /\ is_TypeError null_has_no_keys = true.
Proof.
  split; [|split; [|reflexivity]].
  - intros fuel w actual Hloose Harr. rewrite result_Expect_call.
    unfold run, Matcher.toEqual, Matcher.constructor.
    cbn [_actualValue _shouldMatch]. rewrite Hloose.
    cbn [bind negb Bool.eqb typeof String.eqb].
    change (String.eqb "object" "object") with true. cbn [negb].
    rewrite checkObjectsAreDeepEqual_null by exact Harr. reflexivity.
  - intros w expected actual Hloose Htype Hreach.
    destruct (reaches_null_raises w expected actual Hreach) as [enough Hraise].
    exists enough. intros fuel Hle. rewrite result_Expect_call.
    unfold run, Matcher.toEqual, Matcher.constructor.
    cbn [_actualValue _shouldMatch]. rewrite Hloose.
    cbn [bind negb Bool.eqb]. rewrite Htype.
    change (String.eqb "object" "object") with true. cbn [negb].
    rewrite (Hraise fuel Hle). reflexivity.
Qed.

Lemma reaches_null_one_level_down :
  reaches_null deep_null_world (VObject 21) (VObject 23).
Proof.
  apply null_below with (heap deep_null_world 21) (heap deep_null_world 23) [] [] "a";
    try reflexivity.
  - intros k [].
  - now apply null_here.
Qed.

Lemma toEqual_null_raises_TypeError_witness :
  (loose_equal VNull one = Returns false
   /\ Array_isArray null_world one = false
   /\ result (m <~ Expect one ;; call 1 null_world (toEqual VNull) m)
      = Throws null_has_no_keys)
  /\ (loose_equal (VObject 20) (VObject 22) = Returns false
      /\ typeof deep_null_world (VObject 20) = "object"
      /\ reaches_null deep_null_world (VObject 20) (VObject 22)
      /\ exists enough,
           forall fuel, enough <= fuel ->
             result (m <~ Expect (VObject 22) ;;
                     call fuel deep_null_world (toEqual (VObject 20)) m)
             = Throws null_has_no_keys).
Proof.
  split.
  - split; [reflexivity|]. split; [reflexivity|].
    apply (proj1 toEqual_null_raises_TypeError 0 null_world one); reflexivity.
  - assert (Hreach : reaches_null deep_null_world (VObject 20) (VObject 22)).
    { apply null_below
        with (heap deep_null_world 20) (heap deep_null_world 22) [] [] "o";
        try reflexivity.
      - intros k [].
      - exact reaches_null_one_level_down. }
    split; [reflexivity|]. split; [reflexivity|]. split; [exact Hreach|].
    apply (proj1 (proj2 toEqual_null_raises_TypeError) deep_null_world
             (VObject 20) (VObject 22)); [reflexivity|reflexivity|exact Hreach].
Defined.

(** [{a: null}] against [{a: 1}], [{o: {a: null}}] against [{o: {a: 1}}]
    and [{x: {}, a: null}] against [{x: {}, a: 1}]: the [TypeError] in
    each. *)
Example toEqual_null_inside :
  result (m <~ Expect (VObject 21) ;; call 2 null_world (toEqual (VObject 20)) m)
  = Throws null_has_no_keys
  /\ result (m <~ Expect (VObject 22) ;; call 3 deep_null_world (toEqual (VObject 20)) m)
     = Throws null_has_no_keys
  /\ result (m <~ Expect (VObject 26) ;; call 2 deep_null_world (toEqual (VObject 24)) m)
     = Throws null_has_no_keys
  /\ reaches_null null_world (VObject 20) (VObject 21)
  /\ reaches_null deep_null_world (VObject 24) (VObject 26).
Proof.
  repeat split.
  - apply null_below with (heap null_world 20) (heap null_world 21) [] [] "a";
      try reflexivity.
    + intros k [].
    + now apply null_here.
  - apply null_below
      with (heap deep_null_world 24) (heap deep_null_world 26) ["x"] [] "a";
      try reflexivity.
    + intros k [<-|[]]. apply equal_objects; [reflexivity|].
      apply deep_equal_intro with (heap deep_null_world 25) (heap deep_null_world 27);
        try reflexivity.
      intros key [].
    + now apply null_here.
Qed.

(** ** [toThrowError] *)

Lemma strict_equal_string (v : value) (s : string) :
  strict_equal v (VString s) = true <-> v = VString s.
Proof.
  destruct v; simpl; try (split; [discriminate|congruence]).
  rewrite String.eqb_eq. split; congruence.
Qed.

Lemma instanceof_true_object (w : world) (v C : value) :
  instanceof w v C = Returns true -> exists l, v = VObject l.
Proof.
  unfold instanceof. destruct C; try discriminate.
  destruct (obj_call _); try discriminate.
  destruct v; try discriminate. eauto.
Qed.

(** C5: under the default polarity, [toThrowError(T, m)] on a function
    returns exactly when calling the function throws an error that is an
    instance of [T] and whose message is the string [m]. *)
Theorem toThrowError_passes_iff (fuel : nat) (w : world) (f T : value) (m : string) :
  typeof w f = "function" ->
  result (matcher <~ Expect f ;; call fuel w (toThrowError T (VString m)) matcher)
  = Returns tt
  <-> exists error,
        Call w f = Abrupt error
        /\ instanceof w error T = Returns true
        /\ Get w error "message" = Returns (VString m).
Proof.
  intros _. rewrite result_Expect_call.
  unfold run, Matcher.toThrowError, Matcher.constructor.
  cbn [_actualValue _shouldMatch].
  destruct (Call w f) as [|error].
  - simpl. split; [discriminate|]. intros (error & Hcall & _). discriminate.
  - destruct (instanceof w error T) as [[|]| | |] eqn:Hinst; cbn [bind].
    + destruct (instanceof_true_object _ _ _ Hinst) as [l ->].
      cbn [Get ToObject bind].
      destruct (strict_equal (object_get w (heap w l) "message") (VString m)) eqn:Hmsg;
        cbn [negb Bool.eqb].
      * apply strict_equal_string in Hmsg. split; [|reflexivity].
        intros _. exists (VObject l). rewrite Hinst. cbn [Get ToObject bind].
        now rewrite Hmsg.
      * split; [discriminate|].
        intros (error & [= <-] & _ & Hget). cbn [Get ToObject bind] in Hget.
        injection Hget as Hget. apply strict_equal_string in Hget. congruence.
    + simpl. split; [discriminate|].
      intros (error' & [= <-] & Hinst' & _). congruence.
    + split; [discriminate|]. intros (error' & [= <-] & Hinst' & _). congruence.
    + split; [discriminate|]. intros (error' & [= <-] & Hinst' & _). congruence.
    + split; [discriminate|]. intros (error' & [= <-] & Hinst' & _). congruence.
Qed.

Lemma toThrowError_passes_iff_witness :
  typeof throwing_world (VObject 20) = "function"
  /\ (result (matcher <~ Expect (VObject 20) ;;
              call 0 throwing_world
                (toThrowError (VObject RangeError_constructor) (VString "bad")) matcher)
      = Returns tt
      <-> exists error,
            Call throwing_world (VObject 20) = Abrupt error
            /\ instanceof throwing_world error (VObject RangeError_constructor)
               = Returns true
            /\ Get throwing_world error "message" = Returns (VString "bad")).
Proof.
  split; [reflexivity|].
  apply (toThrowError_passes_iff 0 throwing_world (VObject 20)
           (VObject RangeError_constructor) "bad").
  reflexivity.
Defined.

(** [toThrowError(RangeError, "bad")] passes on a function that throws
    [new RangeError("bad")], and fails on one that throws
    [new RangeError("worse")], on one that throws [new TypeError("bad")]
    and on one that returns. *)
Example toThrowError_RangeError_bad :
  let RangeError := VObject RangeError_constructor in
  let attempt f :=
    result (matcher <~ Expect (VObject f) ;;
            call 0 throwing_world (toThrowError RangeError (VString "bad")) matcher) in
  attempt 20 = Returns tt
  /\ attempt 22
     = Throws (ErrorMatchError (VObject 23) true (Some RangeError) (Some (VString "bad")))
  /\ attempt 24
     = Throws (ErrorMatchError (VObject 25) true (Some RangeError) (Some (VString "bad")))
  /\ attempt 26
     = Throws (ErrorMatchError VUndefined true (Some RangeError) (Some (VString "bad"))).
Proof. repeat split. Qed.

(** ** Usage errors *)

(** C6 fails on [toThrow]: calling the number 5 makes the engine throw a
    [TypeError] inside the [try] block of [toThrow], which catches it as
    the error under test.  [Expect(5).toThrow()] returns, and
    [Expect(5).not.toThrow()] raises a match error. *)
Lemma toThrow_absorbs_usage_error :
  typeof nested_world five = "number"
  /\ result (m <~ Expect five ;; call 0 nested_world toThrow m) = Returns tt
  /\ result (m <~ Expect five ;; n <~ Matcher.not m ;; call 0 nested_world toThrow n)
     = Throws (ErrorMatchError (VObject not_a_function) false None None)
  /\ is_MatchError (ErrorMatchError (VObject not_a_function) false None None) = true.
Proof. repeat split. Qed.

(** C7: [toMatch] throws a [TypeError] when the regular expression is
    [null] or [undefined], and when the actual value is not a string;
    otherwise it raises a [RegexMatchError] exactly when the result of
    [regex.test] differs from the polarity. *)
Theorem toMatch_errors :
  (forall w this,
     Matcher.toMatch w this IsNull
     = Throws (TypeError "toMatch regular expression must not be null or undefined."))
  /\ (forall w this,
        Matcher.toMatch w this IsUndefined
        = Throws (TypeError "toMatch regular expression must not be null or undefined."))
  /\ (forall w this regex,
        typeof w (_actualValue this) <> "string" ->
        Matcher.toMatch w this (Defined regex)
        = Throws (TypeError "toMatch must only be used to match on strings."))
  /\ (forall w s shouldMatch regex,
        Matcher.toMatch w {| _actualValue := VString s; _shouldMatch := shouldMatch |}
          (Defined regex)
        = if Bool.eqb (test regex s) shouldMatch
          then Returns tt
          else Throws (RegexMatchError (VString s) regex shouldMatch)).
Proof.
  repeat split.
  - intros w this regex Htype. unfold Matcher.toMatch.
    destruct (String.eqb (typeof w (_actualValue this)) "string") eqn:E; [|reflexivity].
    apply String.eqb_eq in E. contradiction.
  - intros w s shouldMatch regex. unfold Matcher.toMatch. simpl.
    destruct (test regex s), shouldMatch; reflexivity.
Qed.

Lemma toMatch_errors_witness :
  typeof nested_world (VObject 20) <> "string"
  /\ Matcher.toMatch nested_world (Matcher.constructor (VObject 20))
       (Defined (starts_with "he"))
     = Throws (TypeError "toMatch must only be used to match on strings.").
Proof.
  split; [discriminate|].
  apply (proj1 (proj2 (proj2 toMatch_errors))). discriminate.
Defined.

Example toMatch_hello :
  Matcher.toMatch nested_world (Matcher.constructor (VString "hello"))
    (Defined (starts_with "he")) = Returns tt
  /\ Matcher.toMatch nested_world (Matcher.constructor (VString "hello"))
       (Defined (starts_with "lo"))
     = Throws (RegexMatchError (VString "hello") (starts_with "lo") true)
  /\ Matcher.toMatch nested_world
       {| _actualValue := VString "hello"; _shouldMatch := false |}
       (Defined (starts_with "he"))
     = Throws (RegexMatchError (VString "hello") (starts_with "he") false).
Proof. repeat split. Qed.

(** ** Negation *)

Lemma negated_negated (m : Matcher) : negated (negated m) = m.
Proof. destruct m as [v b]. unfold negated. simpl. now rewrite negb_involutive. Qed.

Lemma not_in_place (s : store) (this : ref) (m : Matcher) :
  s !! this = Some m ->
  Matcher.not this s = Returns (this, <[this := negated m]> s).
Proof. intros H. unfold Matcher.not. rewrite H. reflexivity. Qed.

Lemma not_not (s : store) (this : ref) (m : Matcher) :
  s !! this = Some m ->
  (n <~ Matcher.not this ;; Matcher.not n) s = Returns (this, s).
Proof.
  intros H. unfold chain_bind. rewrite (not_in_place _ _ _ H).
  assert (Hlt : this < length s) by (eapply lookup_lt_Some; exact H).
  rewrite (not_in_place _ _ (negated m)) by now apply list_lookup_insert_eq.
  unfold store, ref in *.
  rewrite list_insert_insert_eq, negated_negated.
  now rewrite list_insert_id.
Qed.

Lemma not_not_then {A : Type} (s : store) (this : ref) (m : Matcher)
  (rest : ref -> chain A) :
  s !! this = Some m ->
  (n <~ Matcher.not this ;; k <~ Matcher.not n ;; rest k) s = rest this s.
Proof.
  intros H. pose proof (not_not s this m H) as Htwice.
  unfold chain_bind in *.
  destruct (Matcher.not this s) as [[n s']| | |]; try discriminate.
  destruct (Matcher.not n s') as [[k s'']| | |]; try discriminate.
  now injection Htwice as -> ->.
Qed.

(** C9: [not] returns the matcher it was called on, with the polarity
    toggled in place and the actual value as it was; called twice it
    leaves the matcher as it found it, so [Expect(x).not.not.op(...)] ends
    as [Expect(x).op(...)] does, for every operation. *)
Theorem not_toggles_the_same_matcher :
  (forall (s : store) (this : ref) (m : Matcher),
     s !! this = Some m ->
     Matcher.not this s
     = Returns (this,
                <[this := {| _actualValue := _actualValue m;
                             _shouldMatch := negb (_shouldMatch m) |}]> s)
     /\ (n <~ Matcher.not this ;; Matcher.not n) s = Returns (this, s))
  /\ (forall fuel w x op (s : store),
        (m <~ Expect x ;; n <~ Matcher.not m ;; k <~ Matcher.not n ;;
         call fuel w op k) s
        = (m <~ Expect x ;; call fuel w op m) s).
Proof.
  split.
  - intros s this m H. split; [now apply not_in_place|now apply not_not with m].
  - intros fuel w x op s.
    change ((m <~ Expect x ;; n <~ Matcher.not m ;; k <~ Matcher.not n ;;
             call fuel w op k) s)
      with ((n <~ Matcher.not (length s) ;; k <~ Matcher.not n ;; call fuel w op k)
              (s ++ [Matcher.constructor x])%list).
    now rewrite (not_not_then _ _ (Matcher.constructor x))
      by now apply list_lookup_middle.
Qed.

Lemma not_toggles_the_same_matcher_witness :
  let s := [Matcher.constructor one; Matcher.constructor two] in
  s !! 1 = Some (Matcher.constructor two)
  /\ Matcher.not 1 s
     = Returns (1, [Matcher.constructor one;
                    {| _actualValue := two; _shouldMatch := false |}])
  /\ (n <~ Matcher.not 1 ;; Matcher.not n) s = Returns (1, s).
Proof.
  intros s. split; [reflexivity|].
  exact (proj1 not_toggles_the_same_matcher s 1 (Matcher.constructor two) eq_refl).
Defined.

(** ** The polarity rule *)

Lemma toBe_polarity (this : Matcher) (expectedValue : value) :
  Matcher.toBe this expectedValue
  = polarity_rule (strict_equal expectedValue (_actualValue this)) (_shouldMatch this)
      (ExactMatchError (_actualValue this) expectedValue (_shouldMatch this)).
Proof.
  unfold Matcher.toBe, polarity_rule.
  destruct (strict_equal _ _), (_shouldMatch this); reflexivity.
Qed.

Lemma toBeDefined_polarity (this : Matcher) :
  Matcher.toBeDefined this
  = polarity_rule (negb (strict_equal (_actualValue this) VUndefined)) (_shouldMatch this)
      (ExactMatchError (_actualValue this) VUndefined (negb (_shouldMatch this))).
Proof.
  unfold Matcher.toBeDefined, polarity_rule.
  destruct (strict_equal _ _), (_shouldMatch this); reflexivity.
Qed.

Lemma toBeNull_polarity (this : Matcher) :
  Matcher.toBeNull this
  = polarity_rule (strict_equal (_actualValue this) VNull) (_shouldMatch this)
      (ExactMatchError (_actualValue this) VNull (_shouldMatch this)).
Proof.
  unfold Matcher.toBeNull, polarity_rule.
  destruct (strict_equal _ _), (_shouldMatch this); reflexivity.
Qed.

Lemma toBeTruthy_polarity (this : Matcher) :
  Matcher.toBeTruthy this
  = polarity_rule (ToBoolean (_actualValue this)) (_shouldMatch this)
      (TruthyMatchError (_actualValue this) (_shouldMatch this)).
Proof.
  unfold Matcher.toBeTruthy, polarity_rule.
  destruct (ToBoolean _), (_shouldMatch this); reflexivity.
Qed.

(** Under the default polarity [toEqual] follows the rule, with loose
    equality or deep equality of an expected object as its predicate. *)
Lemma toEqual_default_polarity (fuel : nat) (w : world) (actual expected : value)
  (loose deep : bool) :
  loose_equal expected actual = Returns loose ->
  Matcher._checkObjectsAreDeepEqual fuel w expected actual = Returns deep ->
  Matcher.toEqual fuel w (Matcher.constructor actual) expected
  = polarity_rule (loose || (String.eqb (typeof w expected) "object" && deep)) true
      (EqualMatchError actual expected true).
Proof.
  intros Hloose Hdeep. unfold Matcher.toEqual, Matcher.constructor, polarity_rule.
  cbn [_actualValue _shouldMatch]. rewrite Hloose. cbn [bind].
  destruct loose; [reflexivity|]. cbn [negb Bool.eqb orb].
  destruct (String.eqb (typeof w expected) "object"); [|reflexivity].
  cbn [negb andb]. rewrite Hdeep. destruct deep; reflexivity.
Qed.

(** ** Negation and [toEqual] *)

(** C1 fails on [toEqual]: with the polarity negated, two distinct objects
    [{a:1, b:{c:2}}] satisfy the predicate of [toEqual] (they are
    deep-equal), and [toEqual] returns instead of raising its
    [EqualMatchError], because the deep path is only entered when the loose
    comparison already contradicts the polarity. *)
Lemma toEqual_negated_misses_deep_equality :
  loose_equal (VObject 22) (VObject 20) = Returns false
  /\ typeof nested_world (VObject 22) = "object"
  /\ Matcher._checkObjectsAreDeepEqual 2 nested_world (VObject 22) (VObject 20)
     = Returns true
  /\ Matcher.toEqual 2 nested_world
       {| _actualValue := VObject 20; _shouldMatch := false |} (VObject 22)
     = Returns tt
  /\ polarity_rule true false (EqualMatchError (VObject 20) (VObject 22) false)
     = Throws (EqualMatchError (VObject 20) (VObject 22) false).
Proof. repeat split. Qed.

(** C2 fails on [toEqual]: for two distinct objects [{a:1, b:{c:2}}] both
    [Expect(x).toEqual(y)] and [Expect(x).not.toEqual(y)] return. *)
Lemma toEqual_and_its_negation_both_pass :
  result (m <~ Expect (VObject 20) ;; call 2 nested_world (toEqual (VObject 22)) m)
  = Returns tt
  /\ result (m <~ Expect (VObject 20) ;; n <~ Matcher.not m ;;
             call 2 nested_world (toEqual (VObject 22)) n)
     = Returns tt.
Proof. split; reflexivity. Qed.

(** * Further properties of the matchers *)

(** ** The errors of the operators *)

Lemma ToObject_throws (w : world) (v : value) (e : exn) :
  ToObject w v = Throws e -> is_TypeError e = true.
Proof. destruct v; simpl; intros [= <-]; reflexivity. Qed.

Lemma ToObject_ends (w : world) (v : value) :
  ToObject w v <> OutOfFuel /\ ToObject w v <> Unmodelled.
Proof. destruct v; simpl; split; discriminate. Qed.

Lemma Get_throws (w : world) (v : value) (key : string) (e : exn) :
  Get w v key = Throws e -> is_TypeError e = true.
Proof.
  unfold Get. destruct (ToObject w v) eqn:H; simpl; try discriminate.
  intros [= <-]. now apply ToObject_throws in H.
Qed.

Lemma Object_keys_throws (w : world) (v : value) (e : exn) :
  Object_keys w v = Throws e -> is_TypeError e = true.
Proof.
  unfold Object_keys. destruct (ToObject w v) eqn:H; simpl; try discriminate.
  intros [= <-]. now apply ToObject_throws in H.
Qed.

Lemma ToNumber_never_throws (v : value) (e : exn) : ToNumber v <> Throws e.
Proof. destruct v; discriminate. Qed.

Lemma length_of_never_throws (w : world) (o : object) (e : exn) :
  length_of w o <> Throws e.
Proof.
  unfold length_of. destruct (ToNumber _) eqn:H; simpl; try discriminate.
  now apply ToNumber_never_throws in H.
Qed.

Lemma loose_equal_never_throws (a b : value) (e : exn) : loose_equal a b <> Throws e.
Proof. destruct a, b; simpl; discriminate. Qed.

Lemma less_than_never_throws (a b : value) (e : exn) : less_than a b <> Throws e.
Proof. destruct a, b; simpl; discriminate. Qed.

Lemma other_method_throws {A : Type} (w : world) (receiver : value) (name : string)
  (e : exn) :
  @other_method A w receiver name = Throws e -> is_TypeError e = true.
Proof.
  unfold other_method. destruct (ToObject w receiver) eqn:H; simpl; try discriminate.
  - destruct (object_get w a name); try (intros [= <-]; reflexivity).
    destruct (obj_call _); [discriminate|]. intros [= <-]; reflexivity.
  - intros [= <-]. now apply ToObject_throws in H.
Qed.

Lemma select_throws (callbackfn : value -> nat -> outcome bool)
  (items : list (nat * value)) (e : exn) :
  (forall v k e', callbackfn v k = Throws e' -> is_TypeError e' = true) ->
  select callbackfn items = Throws e ->
  is_TypeError e = true.
Proof.
  intros Hcb. induction items as [|[k v] rest IH]; simpl; [discriminate|].
  destruct (callbackfn v k) eqn:Hv; simpl; try discriminate.
  - destruct (select callbackfn rest); simpl; try discriminate.
    intros [= <-]. now apply IH.
  - intros [= <-]. now apply Hcb in Hv.
Qed.

Lemma filter_method_throws (w : world) (receiver : value)
  (callbackfn : value -> nat -> outcome bool) (e : exn) :
  (forall v k e', callbackfn v k = Throws e' -> is_TypeError e' = true) ->
  filter_method w receiver callbackfn = Throws e ->
  is_TypeError e = true.
Proof.
  intros Hcb. unfold filter_method.
  destruct receiver; try apply other_method_throws.
  destruct (obj_isArray _); [|apply other_method_throws].
  destruct (length_of w (heap w l)) eqn:Hlen; simpl; try discriminate.
  - now apply select_throws.
  - now apply length_of_never_throws in Hlen.
Qed.

Lemma indexOf_throws (w : world) (receiver searchElement : value) (e : exn) :
  indexOf w receiver searchElement = Throws e -> is_TypeError e = true.
Proof.
  unfold indexOf. destruct receiver; try apply other_method_throws.
  - destruct searchElement; discriminate.
  - destruct (obj_isArray _); [|apply other_method_throws].
    destruct (length_of w (heap w l)) eqn:Hlen; simpl; try discriminate.
    now apply length_of_never_throws in Hlen.
Qed.

Lemma instanceof_throws (w : world) (v C : value) (e : exn) :
  instanceof w v C = Throws e -> is_TypeError e = true.
Proof.
  unfold instanceof. destruct C; try (intros [= <-]; reflexivity).
  destruct (obj_call _); [|intros [= <-]; reflexivity].
  destruct v; try discriminate.
  destruct (object_get _ _ _); try discriminate; intros [= <-]; reflexivity.
Qed.

Lemma compare_properties_throws (recur : value -> value -> outcome bool) (w : world)
  (A B : value) (keys : list string) (e : exn) :
  (forall a b e', recur a b = Throws e' -> is_TypeError e' = true) ->
  Matcher.compare_properties recur w A B keys = Throws e ->
  is_TypeError e = true.
Proof.
  intros Hrecur. induction keys as [|key rest IH]; simpl; [discriminate|].
  destruct (Get w A key) as [a| | |] eqn:HA; simpl; try discriminate.
  - destruct (Get w B key) as [b| | |] eqn:HB; simpl; try discriminate.
    + destruct (negb (strict_equal a b)); [|exact IH].
      destruct (negb (String.eqb (typeof w a) "object")); [discriminate|].
      destruct (recur a b) as [[|]| | |] eqn:Hab; simpl; try discriminate.
      * exact IH.
      * intros [= <-]. now apply Hrecur in Hab.
    + intros [= <-]. now apply Get_throws in HB.
  - intros [= <-]. now apply Get_throws in HA.
Qed.

Lemma checkObjectsAreDeepEqual_throws (w : world) (fuel : nat) :
  forall A B e,
    Matcher._checkObjectsAreDeepEqual fuel w A B = Throws e ->
    is_TypeError e = true.
Proof.
  induction fuel as [|fuel IH]; intros A B e; simpl; [discriminate|].
  destruct (negb (Bool.eqb (Array_isArray w A) (Array_isArray w B))); [discriminate|].
  destruct (Object_keys w A) as [ka| | |] eqn:HA; simpl; try discriminate.
  - destruct (Object_keys w B) as [kb| | |] eqn:HB; simpl; try discriminate.
    + destruct (negb (length ka =? length kb)); [discriminate|].
      apply compare_properties_throws. exact IH.
    + intros [= <-]. now apply Object_keys_throws in HB.
  - intros [= <-]. now apply Object_keys_throws in HA.
Qed.

(** ** What a comparison method can raise *)

Lemma call_arguments_callback_throws (w : world) (args : list value)
  (call : value) (k : nat) (e : exn) :
  (callArgs <- Get w call "args" ;;
   same <- filter_method w callArgs
             (fun arg index => Returns (strict_equal arg (nth index args VUndefined))) ;;
   if length same =? length args
   then
     callArgs' <- Get w call "args" ;;
     count <- Get w callArgs' "length" ;;
     Returns (strict_equal count (VNumber (Num (Z.of_nat (length args)))))
   else Returns false) = Throws e ->
  is_TypeError e = true.
Proof.
  destruct (Get w call "args") as [callArgs| | |] eqn:Hargs; simpl; try discriminate.
  - destruct (filter_method w callArgs _) as [same| | |] eqn:Hsame; simpl;
      try discriminate.
    + destruct (length same =? length args); [|discriminate].
      destruct (Get w callArgs "length") eqn:Hlen; simpl; try discriminate.
      intros [= <-]. now apply Get_throws in Hlen.
    + intros [= <-]. apply filter_method_throws in Hsame; [exact Hsame|].
      intros v k' e'. discriminate.
  - intros [= <-]. now apply Get_throws in Hargs.
Qed.

Lemma first_argument_callback_throws (w : world) (setValue call : value) (e : exn) :
  (callArgs <- Get w call "args" ;;
   first <- Get w callArgs (index_key 0) ;;
   Returns (strict_equal first setValue)) = Throws e ->
  is_TypeError e = true.
Proof.
  destruct (Get w call "args") as [callArgs| | |] eqn:Hargs; simpl; try discriminate.
  - destruct (Get w callArgs (index_key 0)) eqn:Hfirst; simpl; try discriminate.
    intros [= <-]. now apply Get_throws in Hfirst.
  - intros [= <-]. now apply Get_throws in Hargs.
Qed.

(** X2: In the runs the embedding covers (data properties, the built-in
    [indexOf] and [filter], no coercion) an error that leaves a comparison
    method is a [TypeError] or the match error of that method, carrying
    the actual value and the polarity of the matcher ([toBeDefined] carries
    the opposite polarity); that of [toThrowError] carries the error it
    caught, and that of [toThrow] carries it under the negated polarity
    and [undefined] under the default one. *)
Theorem raised_errors_are_classified (fuel : nat) (w : world) (op : operation)
  (this : Matcher) (e : exn) :
  run fuel w op this = Throws e ->
  is_TypeError e = true \/ own_error_of w op this e.
Proof.
  destruct this as [actual polarity].
  destruct op; unfold run, own_error_of, own_error; cbn [_actualValue _shouldMatch].
  - unfold Matcher.toBe. cbn [_actualValue _shouldMatch].
    destruct (Bool.eqb _ _); [|discriminate]. intros [= <-]. now right.
  - unfold Matcher.toEqual. cbn [_actualValue _shouldMatch].
    destruct (loose_equal expectedValue actual) as [loose| | |] eqn:Hloose; simpl;
      try discriminate.
    + destruct (Bool.eqb (negb loose) polarity); [|discriminate].
      destruct (negb (String.eqb _ _)); [intros [= <-]; now right|].
      destruct (Matcher._checkObjectsAreDeepEqual fuel w expectedValue actual)
        as [deep| | |] eqn:Hdeep; simpl; try discriminate.
      * destruct (negb (Bool.eqb deep polarity)); [|discriminate].
        intros [= <-]. now right.
      * intros [= <-]. left. now apply checkObjectsAreDeepEqual_throws in Hdeep.
    + now apply loose_equal_never_throws in Hloose.
  - unfold Matcher.toMatch. cbn [_actualValue _shouldMatch].
    destruct regex as [| |r]; try (intros [= <-]; now left).
    destruct (negb (String.eqb _ _)); [intros [= <-]; now left|].
    destruct actual; simpl; try discriminate.
    destruct (Bool.eqb _ _); [|discriminate]. intros [= <-]. right. now exists r.
  - unfold Matcher.toBeDefined. cbn [_actualValue _shouldMatch].
    destruct (Bool.eqb _ _); [|discriminate]. intros [= <-]. now right.
  - unfold Matcher.toBeNull. cbn [_actualValue _shouldMatch].
    destruct (Bool.eqb _ _); [|discriminate]. intros [= <-]. now right.
  - unfold Matcher.toBeTruthy. cbn [_actualValue _shouldMatch].
    destruct (_ || _); [|discriminate]. intros [= <-]. now right.
  - unfold Matcher.toContain. cbn [_actualValue _shouldMatch].
    destruct (indexOf w actual expectedContent) as [found| | |] eqn:Hfound; simpl;
      try discriminate.
    + destruct (Bool.eqb _ _); [|discriminate]. intros [= <-]. now right.
    + intros [= <-]. left. now apply indexOf_throws in Hfound.
  - unfold Matcher.toBeLessThan. cbn [_actualValue _shouldMatch].
    destruct (less_than actual upperLimit) as [less| | |] eqn:Hless; simpl;
      try discriminate.
    + destruct (negb _); [|discriminate]. intros [= <-]. now right.
    + now apply less_than_never_throws in Hless.
  - unfold Matcher.toBeGreaterThan. cbn [_actualValue _shouldMatch].
    destruct (less_than lowerLimit actual) as [less| | |] eqn:Hless; simpl;
      try discriminate.
    + destruct (negb _); [|discriminate]. intros [= <-]. now right.
    + now apply less_than_never_throws in Hless.
  - unfold Matcher.toThrow. cbn [_actualValue _shouldMatch].
    destruct (Call w actual) as [|error], polarity; simpl; try discriminate.
    + intros [= <-]. now right.
    + destruct (strict_equal error VUndefined); [|discriminate].
      intros [= <-]. now right.
    + intros [= <-]. now right.
  - unfold Matcher.toThrowError. cbn [_actualValue _shouldMatch].
    destruct (Call w actual) as [|error].
    + destruct (Bool.eqb _ _); [|discriminate].
      intros [= <-]. now right.
    + destruct (instanceof w error errorType) as [[|]| | |] eqn:Hinst; simpl;
        try discriminate.
      * destruct (Get w error "message") as [message| | |] eqn:Hmsg; simpl;
          try discriminate.
        -- destruct (Bool.eqb _ _); [|discriminate].
           intros [= <-]. now right.
        -- intros [= <-]. left. now apply Get_throws in Hmsg.
      * destruct polarity; simpl; [|discriminate].
        intros [= <-]. now right.
      * intros [= <-]. left. now apply instanceof_throws in Hinst.
  - unfold Matcher.toHaveBeenCalled. cbn [_actualValue _shouldMatch].
    destruct (Get w actual "calls") as [calls| | |] eqn:Hcalls; simpl; try discriminate.
    + destruct (Get w calls "length") as [count| | |] eqn:Hcount; simpl;
        try discriminate.
      * destruct (Bool.eqb _ _); [|discriminate]. intros [= <-]. now right.
      * intros [= <-]. left. now apply Get_throws in Hcount.
    + intros [= <-]. left. now apply Get_throws in Hcalls.
  - unfold Matcher.toHaveBeenCalledWith. cbn [_actualValue _shouldMatch].
    destruct (Get w actual "calls") as [calls| | |] eqn:Hcalls; simpl; try discriminate.
    + destruct (filter_method w calls _) as [matching| | |] eqn:Hmatching; simpl;
        try discriminate.
      * destruct (Bool.eqb _ _); [|discriminate]. intros [= <-]. now right.
      * intros [= <-]. left. apply filter_method_throws in Hmatching; [exact Hmatching|].
        intros call k e'. apply call_arguments_callback_throws. exact k.
    + intros [= <-]. left. now apply Get_throws in Hcalls.
  - unfold Matcher.toHaveBeenSet. cbn [_actualValue _shouldMatch].
    destruct (Get w actual "setCalls") as [calls| | |] eqn:Hcalls; simpl;
      try discriminate.
    + destruct (Get w calls "length") as [count| | |] eqn:Hcount; simpl;
        try discriminate.
      * destruct (Bool.eqb _ _); [|discriminate]. intros [= <-]. now right.
      * intros [= <-]. left. now apply Get_throws in Hcount.
    + intros [= <-]. left. now apply Get_throws in Hcalls.
  - unfold Matcher.toHaveBeenSetTo. cbn [_actualValue _shouldMatch].
    destruct (Get w actual "setCalls") as [calls| | |] eqn:Hcalls; simpl;
      try discriminate.
    + destruct (filter_method w calls _) as [matching| | |] eqn:Hmatching; simpl;
        try discriminate.
      * destruct (Bool.eqb _ _); [|discriminate]. intros [= <-]. now right.
      * intros [= <-]. left. apply filter_method_throws in Hmatching; [exact Hmatching|].
        intros call k e'. apply first_argument_callback_throws.
    + intros [= <-]. left. now apply Get_throws in Hcalls.
Qed.

Lemma raised_errors_are_classified_witness :
  run 0 throwing_world toThrow (negated (Matcher.constructor (VObject 20)))
  = Throws (ErrorMatchError (VObject 21) false None None)
  /\ (is_TypeError (ErrorMatchError (VObject 21) false None None) = true
      \/ own_error_of throwing_world toThrow (negated (Matcher.constructor (VObject 20)))
           (ErrorMatchError (VObject 21) false None None)).
Proof.
  split; [reflexivity|].
  apply (raised_errors_are_classified 0 throwing_world toThrow
           (negated (Matcher.constructor (VObject 20)))).
  reflexivity.
Defined.

(** X3: [toBe], [toBeDefined], [toBeNull], [toBeTruthy] and [toThrow] accept
    every actual value: whatever it is, they return or raise their own
    match error, never a [TypeError]. *)
Theorem no_usage_error_when_any_value_is_taken (fuel : nat) (w : world)
  (op : operation) (this : Matcher) :
  takes_any_value op = true ->
  run fuel w op this = Returns tt
  \/ exists e, run fuel w op this = Throws e
               /\ own_error op this e
               /\ is_MatchError e = true.
Proof.
  destruct this as [actual polarity].
  destruct op; try discriminate; intros _; unfold run, own_error;
    cbn [_actualValue _shouldMatch].
  - unfold Matcher.toBe. cbn [_actualValue _shouldMatch].
    destruct (Bool.eqb _ _); [right|now left]. eexists. now repeat split.
  - unfold Matcher.toBeDefined. cbn [_actualValue _shouldMatch].
    destruct (Bool.eqb _ _); [right|now left]. eexists. now repeat split.
  - unfold Matcher.toBeNull. cbn [_actualValue _shouldMatch].
    destruct (Bool.eqb _ _); [right|now left]. eexists. now repeat split.
  - unfold Matcher.toBeTruthy. cbn [_actualValue _shouldMatch].
    destruct (_ || _); [right|now left]. eexists. now repeat split.
  - unfold Matcher.toThrow. cbn [_actualValue _shouldMatch].
    destruct (Call w actual) as [|error].
    + destruct (polarity && _); [right|now left].
      eexists. split; [reflexivity|]. split; [now exists VUndefined|reflexivity].
    + destruct (negb polarity).
      * right. eexists. split; [reflexivity|]. split; [now exists error|reflexivity].
      * destruct (polarity && _); [right|now left].
        eexists. split; [reflexivity|]. split; [now exists VUndefined|reflexivity].
Qed.

Lemma no_usage_error_when_any_value_is_taken_witness :
  takes_any_value toThrow = true
  /\ (run 0 nested_world toThrow (Matcher.constructor five) = Returns tt
      \/ exists e, run 0 nested_world toThrow (Matcher.constructor five) = Throws e
                   /\ own_error toThrow (Matcher.constructor five) e
                   /\ is_MatchError e = true).
Proof.
  split; [reflexivity|].
  apply (no_usage_error_when_any_value_is_taken 0 nested_world toThrow
           (Matcher.constructor five)).
  reflexivity.
Defined.

(** ** Negation as a complement *)

Ltac settle_by_polarity :=
  simpl; split;
  [ intros H; try discriminate H; eexists; split; reflexivity
  | intros e' H Hmatch; try discriminate H; reflexivity ].

Ltac settle_usage_error H lemma :=
  split;
  [ discriminate
  | intros e' [= <-] Hmatch; apply lemma in H;
    unfold is_MatchError in Hmatch; rewrite H in Hmatch; discriminate Hmatch ].

Ltac settle_unfinished := split; [discriminate | intros e' H; discriminate H].

(** X1: For every operation but [toEqual] and [toThrow], negation is a
    complement: when the call on a matcher returns, the call on the negated
    matcher raises a match error, and when the call raises a match error,
    the call on the negated matcher returns. *)
Theorem negation_is_a_complement (fuel : nat) (w : world) (op : operation)
  (this : Matcher) :
  follows_rule op = true ->
  (run fuel w op this = Returns tt ->
   exists e, run fuel w op (negated this) = Throws e /\ is_MatchError e = true)
  /\ (forall e,
        run fuel w op this = Throws e ->
        is_MatchError e = true ->
        run fuel w op (negated this) = Returns tt).
Proof.
  destruct this as [actual polarity].
  destruct op; try discriminate; intros _; unfold run, negated;
    cbn [_actualValue _shouldMatch].
  - unfold Matcher.toBe. cbn [_actualValue _shouldMatch].
    destruct (strict_equal expectedValue actual), polarity; settle_by_polarity.
  - unfold Matcher.toMatch. cbn [_actualValue _shouldMatch].
    destruct regex as [| |r].
    + split; [discriminate|]. intros e' [= <-]. discriminate.
    + split; [discriminate|]. intros e' [= <-]. discriminate.
    + destruct (negb (String.eqb _ _)).
      * split; [discriminate|]. intros e' [= <-]. discriminate.
      * destruct actual; try settle_unfinished.
        simpl. destruct (test r s), polarity; settle_by_polarity.
  - unfold Matcher.toBeDefined. cbn [_actualValue _shouldMatch].
    destruct (strict_equal actual VUndefined), polarity; settle_by_polarity.
  - unfold Matcher.toBeNull. cbn [_actualValue _shouldMatch].
    destruct (strict_equal actual VNull), polarity; settle_by_polarity.
  - unfold Matcher.toBeTruthy. cbn [_actualValue _shouldMatch].
    destruct (ToBoolean actual), polarity; settle_by_polarity.
  - unfold Matcher.toContain. cbn [_actualValue _shouldMatch].
    destruct (indexOf w actual expectedContent) as [found| | |] eqn:Hfound;
      cbn [bind]; try settle_unfinished.
    + destruct (strict_equal found (VNumber (Num (-1)))), polarity; settle_by_polarity.
    + settle_usage_error Hfound indexOf_throws.
  - unfold Matcher.toBeLessThan. cbn [_actualValue _shouldMatch].
    destruct (less_than actual upperLimit) as [less| | |] eqn:Hless;
      cbn [bind]; try settle_unfinished.
    + destruct less, polarity; settle_by_polarity.
    + now apply less_than_never_throws in Hless.
  - unfold Matcher.toBeGreaterThan. cbn [_actualValue _shouldMatch].
    destruct (less_than lowerLimit actual) as [less| | |] eqn:Hless;
      cbn [bind]; try settle_unfinished.
    + destruct less, polarity; settle_by_polarity.
    + now apply less_than_never_throws in Hless.
  - unfold Matcher.toThrowError. cbn [_actualValue _shouldMatch].
    destruct (Call w actual) as [|error].
    + destruct polarity; settle_by_polarity.
    + destruct (instanceof w error errorType) as [[|]| | |] eqn:Hinst;
        cbn [bind]; try settle_unfinished.
      * destruct (Get w error "message") as [message| | |] eqn:Hmsg;
          cbn [bind]; try settle_unfinished.
        -- destruct (strict_equal message errorMessage), polarity; settle_by_polarity.
        -- settle_usage_error Hmsg Get_throws.
      * destruct polarity; settle_by_polarity.
      * settle_usage_error Hinst instanceof_throws.
  - unfold Matcher.toHaveBeenCalled. cbn [_actualValue _shouldMatch].
    destruct (Get w actual "calls") as [calls| | |] eqn:Hcalls;
      cbn [bind]; try settle_unfinished.
    + destruct (Get w calls "length") as [count| | |] eqn:Hcount;
        cbn [bind]; try settle_unfinished.
      * destruct (strict_equal count (VNumber (Num 0))), polarity; settle_by_polarity.
      * settle_usage_error Hcount Get_throws.
    + settle_usage_error Hcalls Get_throws.
  - unfold Matcher.toHaveBeenCalledWith. cbn [_actualValue _shouldMatch].
    destruct (Get w actual "calls") as [calls| | |] eqn:Hcalls;
      cbn [bind]; try settle_unfinished.
    + destruct (filter_method w calls _) as [matching| | |] eqn:Hmatching;
        cbn [bind]; try settle_unfinished.
      * destruct (length matching =? 0), polarity; settle_by_polarity.
      * apply filter_method_throws in Hmatching;
          [|intros call k e'; apply call_arguments_callback_throws; exact k].
        split; [discriminate|]. intros e' [= <-] Hmatch.
        unfold is_MatchError in Hmatch. rewrite Hmatching in Hmatch. discriminate Hmatch.
    + settle_usage_error Hcalls Get_throws.
  - unfold Matcher.toHaveBeenSet. cbn [_actualValue _shouldMatch].
    destruct (Get w actual "setCalls") as [calls| | |] eqn:Hcalls;
      cbn [bind]; try settle_unfinished.
    + destruct (Get w calls "length") as [count| | |] eqn:Hcount;
        cbn [bind]; try settle_unfinished.
      * destruct (strict_equal count (VNumber (Num 0))), polarity; settle_by_polarity.
      * settle_usage_error Hcount Get_throws.
    + settle_usage_error Hcalls Get_throws.
  - unfold Matcher.toHaveBeenSetTo. cbn [_actualValue _shouldMatch].
    destruct (Get w actual "setCalls") as [calls| | |] eqn:Hcalls;
      cbn [bind]; try settle_unfinished.
    + destruct (filter_method w calls _) as [matching| | |] eqn:Hmatching;
        cbn [bind]; try settle_unfinished.
      * destruct (length matching =? 0), polarity; settle_by_polarity.
      * apply filter_method_throws in Hmatching;
          [|intros call k e'; apply first_argument_callback_throws].
        split; [discriminate|]. intros e' [= <-] Hmatch.
        unfold is_MatchError in Hmatch. rewrite Hmatching in Hmatch. discriminate Hmatch.
    + settle_usage_error Hcalls Get_throws.
Qed.

Lemma negation_is_a_complement_witness :
  follows_rule (toBe one) = true
  /\ run 0 nested_world (toBe one) (Matcher.constructor one) = Returns tt
  /\ exists e, run 0 nested_world (toBe one) (negated (Matcher.constructor one)) = Throws e
               /\ is_MatchError e = true.
Proof.
  split; [reflexivity|]. split; [reflexivity|].
  apply (proj1 (negation_is_a_complement 0 nested_world (toBe one)
                  (Matcher.constructor one) eq_refl)).
  reflexivity.
Defined.

(** ** [toThrow] *)

(** X4: Under the default polarity [toThrow] returns exactly when the call
    throws a value other than [undefined]; under the negated polarity it
    returns exactly when the call returns. *)
Theorem toThrow_passes_iff (w : world) (f : value) :
  (Matcher.toThrow w (Matcher.constructor f) = Returns tt
   <-> exists error, Call w f = Abrupt error /\ error <> VUndefined)
  /\ (Matcher.toThrow w (negated (Matcher.constructor f)) = Returns tt
      <-> Call w f = Normal).
Proof.
  unfold Matcher.toThrow, negated, Matcher.constructor.
  cbn [_actualValue _shouldMatch negb andb].
  destruct (Call w f) as [|error]; split; split; try discriminate; try reflexivity.
  - intros (error & H & _). discriminate H.
  - destruct error; try discriminate; intros _; eexists; split;
      try reflexivity; discriminate.
  - intros (error' & [= <-] & Hdefined). destruct error; try reflexivity.
    now contradiction Hdefined.
Qed.

(** X5: A function that throws [undefined] fails [toThrow] under both
    polarities. *)
Theorem toThrow_undefined_fails_both_ways (w : world) (f : value) :
  Call w f = Abrupt VUndefined ->
  Matcher.toThrow w (Matcher.constructor f)
  = Throws (ErrorMatchError VUndefined true None None)
  /\ Matcher.toThrow w (negated (Matcher.constructor f))
     = Throws (ErrorMatchError VUndefined false None None).
Proof.
  intros H. unfold Matcher.toThrow, negated, Matcher.constructor.
  cbn [_actualValue _shouldMatch]. rewrite H. split; reflexivity.
Qed.

Lemma toThrow_undefined_fails_both_ways_witness :
  Call edge_world (VObject 20) = Abrupt VUndefined
  /\ Matcher.toThrow edge_world (Matcher.constructor (VObject 20))
     = Throws (ErrorMatchError VUndefined true None None)
  /\ Matcher.toThrow edge_world (negated (Matcher.constructor (VObject 20)))
     = Throws (ErrorMatchError VUndefined false None None).
Proof.
  split; [reflexivity|].
  apply (toThrow_undefined_fails_both_ways edge_world (VObject 20)). reflexivity.
Defined.

(** X6: Where [toThrowError] passes, [toThrow] passes: an error of the right
    type and message is an error. *)
Theorem toThrowError_implies_toThrow (w : world) (f errorType errorMessage : value) :
  Matcher.toThrowError w (Matcher.constructor f) errorType errorMessage = Returns tt ->
  Matcher.toThrow w (Matcher.constructor f) = Returns tt.
Proof.
  intros H. apply (proj1 (toThrow_passes_iff w f)).
  unfold Matcher.toThrowError, Matcher.constructor in H.
  cbn [_actualValue _shouldMatch] in H.
  destruct (Call w f) as [|error]; [discriminate H|].
  exists error. split; [reflexivity|].
  destruct (instanceof w error errorType) as [[|]| | |] eqn:Hinst; try discriminate H.
  apply instanceof_true_object in Hinst as [l ->]. discriminate.
Qed.

Lemma toThrowError_implies_toThrow_witness :
  Matcher.toThrowError throwing_world (Matcher.constructor (VObject 20))
    (VObject RangeError_constructor) (VString "bad") = Returns tt
  /\ Matcher.toThrow throwing_world (Matcher.constructor (VObject 20)) = Returns tt.
Proof.
  split; [reflexivity|].
  apply (toThrowError_implies_toThrow throwing_world (VObject 20)
           (VObject RangeError_constructor) (VString "bad")).
  reflexivity.
Defined.

(** X7: When the expected type is not a function, [toThrowError] raises a
    [TypeError] as soon as the function under test throws, whatever the
    polarity; when the function returns, the type is not looked at. *)
Theorem toThrowError_with_a_type_that_is_no_function (w : world) (this : Matcher)
  (errorType errorMessage : value) :
  typeof w errorType <> "function" ->
  (forall error,
     Call w (_actualValue this) = Abrupt error ->
     exists e, Matcher.toThrowError w this errorType errorMessage = Throws e
               /\ is_TypeError e = true)
  /\ (Call w (_actualValue this) = Normal ->
      Matcher.toThrowError w this errorType errorMessage
      = polarity_rule false (_shouldMatch this)
          (ErrorMatchError VUndefined (_shouldMatch this)
             (Some errorType) (Some errorMessage))).
Proof.
  intros Htype. unfold Matcher.toThrowError. split.
  - intros error ->. unfold instanceof.
    destruct errorType as [| | | | |c]; try (eexists; split; reflexivity).
    simpl in Htype. destruct (obj_call (heap w c)); [now contradiction Htype|].
    eexists; split; reflexivity.
  - intros ->. unfold polarity_rule. now destruct (_shouldMatch this).
Qed.

Lemma toThrowError_with_a_type_that_is_no_function_witness :
  typeof throwing_world five <> "function"
  /\ (forall error,
        Call throwing_world (VObject 20) = Abrupt error ->
        exists e, Matcher.toThrowError throwing_world (Matcher.constructor (VObject 20))
                    five (VString "bad") = Throws e
                  /\ is_TypeError e = true).
Proof.
  split; [discriminate|].
  apply (toThrowError_with_a_type_that_is_no_function throwing_world
           (Matcher.constructor (VObject 20)) five (VString "bad")).
  discriminate.
Defined.

(** ** Identity and equality *)

Lemma strict_equal_loose_equal (a b : value) :
  strict_equal a b = true -> loose_equal a b = Returns true.
Proof.
  destruct a as [| |x|[|x]|x|x], b as [| |y|[|y]|y|y]; simpl; try discriminate;
    try reflexivity; try (intros ->; reflexivity).
  destruct x, y; simpl; try discriminate; reflexivity.
Qed.

(** X8: Where [toBe] passes, [toEqual] passes. *)
Theorem toBe_implies_toEqual (fuel : nat) (w : world) (actual expected : value) :
  Matcher.toBe (Matcher.constructor actual) expected = Returns tt ->
  Matcher.toEqual fuel w (Matcher.constructor actual) expected = Returns tt.
Proof.
  unfold Matcher.toBe, Matcher.constructor. cbn [_actualValue _shouldMatch].
  destruct (strict_equal expected actual) eqn:Hsame; [|discriminate].
  intros _. apply toEqual_loosely_equal. now apply strict_equal_loose_equal.
Qed.

Lemma toBe_implies_toEqual_witness :
  Matcher.toBe (Matcher.constructor (VObject 20)) (VObject 20) = Returns tt
  /\ Matcher.toEqual 0 nested_world (Matcher.constructor (VObject 20)) (VObject 20)
     = Returns tt.
Proof.
  split; [reflexivity|].
  apply (toBe_implies_toEqual 0 nested_world (VObject 20) (VObject 20)). reflexivity.
Defined.

Lemma strict_equal_same (v : value) : strict_equal v v = negb (is_NaN v).
Proof.
  destruct v as [| |b|[|z]|s|l]; simpl; try reflexivity.
  - now destruct b.
  - apply Z.eqb_refl.
  - apply String.eqb_refl.
  - apply Nat.eqb_refl.
Qed.

(** X9: [Expect(v).toBe(v)] returns for every value but [NaN], for which it
    raises; two objects pass [toBe] only when they are the same object. *)
Theorem toBe_is_identity :
  (forall v,
     Matcher.toBe (Matcher.constructor v) v
     = polarity_rule (negb (is_NaN v)) true (ExactMatchError v v true))
  /\ (forall a b,
        Matcher.toBe (Matcher.constructor (VObject a)) (VObject b) = Returns tt
        <-> a = b).
Proof.
  split.
  - intros v. unfold Matcher.toBe, Matcher.constructor, polarity_rule.
    cbn [_actualValue _shouldMatch]. rewrite strict_equal_same.
    now destruct (is_NaN v).
  - intros a b. unfold Matcher.toBe, Matcher.constructor.
    cbn [_actualValue _shouldMatch strict_equal].
    destruct (Nat.eqb_spec b a) as [->|Hne]; simpl; split; try reflexivity;
      try discriminate; congruence.
Qed.

(** X10: When the expected value is not of type ["object"], [toEqual] is loose
    equality compared with the polarity, under both polarities. *)
Theorem toEqual_on_a_primitive_follows_the_rule (fuel : nat) (w : world)
  (this : Matcher) (expected : value) (loose : bool) :
  typeof w expected <> "object" ->
  loose_equal expected (_actualValue this) = Returns loose ->
  Matcher.toEqual fuel w this expected
  = polarity_rule loose (_shouldMatch this)
      (EqualMatchError (_actualValue this) expected (_shouldMatch this)).
Proof.
  intros Htype Hloose. unfold Matcher.toEqual, polarity_rule. rewrite Hloose.
  cbn [bind].
  destruct (String.eqb (typeof w expected) "object") eqn:E;
    [apply String.eqb_eq in E; contradiction|].
  now destruct loose, (_shouldMatch this).
Qed.

Lemma toEqual_on_a_primitive_follows_the_rule_witness :
  typeof nested_world one <> "object"
  /\ loose_equal one (VBool true) = Returns true
  /\ Matcher.toEqual 0 nested_world (negated (Matcher.constructor (VBool true))) one
     = Throws (EqualMatchError (VBool true) one false).
Proof.
  split; [discriminate|]. split; [reflexivity|].
  apply (toEqual_on_a_primitive_follows_the_rule 0 nested_world
           (negated (Matcher.constructor (VBool true))) one true);
    [discriminate|reflexivity].
Defined.

(** ** Defined, null and truthy *)

(** X11: A truthy value is defined and not null; [null] is defined and not
    truthy; [undefined] is neither null nor truthy. *)
Theorem truthy_defined_and_null (v : value) :
  (Matcher.toBeTruthy (Matcher.constructor v) = Returns tt ->
   Matcher.toBeDefined (Matcher.constructor v) = Returns tt
   /\ Matcher.toBeNull (negated (Matcher.constructor v)) = Returns tt)
  /\ (Matcher.toBeNull (Matcher.constructor v) = Returns tt ->
      Matcher.toBeDefined (Matcher.constructor v) = Returns tt
      /\ Matcher.toBeTruthy (negated (Matcher.constructor v)) = Returns tt)
  /\ (Matcher.toBeDefined (negated (Matcher.constructor v)) = Returns tt ->
      Matcher.toBeNull (negated (Matcher.constructor v)) = Returns tt
      /\ Matcher.toBeTruthy (negated (Matcher.constructor v)) = Returns tt).
Proof.
  unfold Matcher.toBeTruthy, Matcher.toBeDefined, Matcher.toBeNull, negated,
    Matcher.constructor.
  cbn [_actualValue _shouldMatch].
  destruct v as [| |b|[|z]|s|l]; simpl; repeat split; try discriminate;
    try reflexivity.
Qed.

Lemma truthy_defined_and_null_witness :
  Matcher.toBeTruthy (Matcher.constructor one) = Returns tt
  /\ Matcher.toBeDefined (Matcher.constructor one) = Returns tt
  /\ Matcher.toBeNull (negated (Matcher.constructor one)) = Returns tt.
Proof.
  split; [reflexivity|].
  apply (proj1 (truthy_defined_and_null one)). reflexivity.
Defined.

(** ** Ordering *)

(** X12: Of [toBeLessThan], [toBe] and [toBeGreaterThan] exactly one passes on
    two numbers that are not [NaN]; none passes when one of them is
    [NaN]. *)
Theorem number_trichotomy :
  (forall a b : Z,
     let x := VNumber (Num a) in
     let y := VNumber (Num b) in
     (Matcher.toBeLessThan (Matcher.constructor x) y = Returns tt <-> (a < b)%Z)
     /\ (Matcher.toBe (Matcher.constructor x) y = Returns tt <-> a = b)
     /\ (Matcher.toBeGreaterThan (Matcher.constructor x) y = Returns tt <-> (b < a)%Z))
  /\ (forall x y : number,
        x = NaN \/ y = NaN ->
        Matcher.toBeLessThan (Matcher.constructor (VNumber x)) (VNumber y)
        = Throws (LessThanMatchError (VNumber x) (VNumber y) true)
        /\ Matcher.toBe (Matcher.constructor (VNumber x)) (VNumber y)
           = Throws (ExactMatchError (VNumber x) (VNumber y) true)
        /\ Matcher.toBeGreaterThan (Matcher.constructor (VNumber x)) (VNumber y)
           = Throws (GreaterThanMatchError (VNumber x) (VNumber y) true)).
Proof.
  split.
  - intros a b x y. subst x y.
    unfold Matcher.toBeLessThan, Matcher.toBe, Matcher.toBeGreaterThan,
      Matcher.constructor.
    cbn [_actualValue _shouldMatch less_than ToNumber bind number_ltb strict_equal
         number_eqb].
    repeat split.
    + destruct (Z.ltb_spec a b); simpl; [trivial|discriminate].
    + destruct (Z.ltb_spec a b); simpl; [trivial|lia].
    + destruct (Z.eqb_spec b a); simpl; [congruence|discriminate].
    + intros ->. now rewrite Z.eqb_refl.
    + destruct (Z.ltb_spec b a); simpl; [trivial|discriminate].
    + destruct (Z.ltb_spec b a); simpl; [trivial|lia].
  - intros x y H.
    unfold Matcher.toBeLessThan, Matcher.toBe, Matcher.toBeGreaterThan,
      Matcher.constructor.
    cbn [_actualValue _shouldMatch less_than ToNumber bind strict_equal].
    destruct x as [|a], y as [|b]; destruct H as [H|H]; try discriminate H;
      repeat split; reflexivity.
Qed.

Lemma number_trichotomy_witness :
  (NaN = NaN \/ Num 1 = NaN)
  /\ Matcher.toBeLessThan (Matcher.constructor (VNumber NaN)) (VNumber (Num 1))
     = Throws (LessThanMatchError (VNumber NaN) (VNumber (Num 1)) true).
Proof.
  split; [now left|].
  apply (proj2 number_trichotomy NaN (Num 1)). now left.
Defined.

(** ** [toContain] *)

(** X13: On two strings, [toContain] passes exactly when the expected string
    occurs in the actual one at some position. *)
Theorem toContain_on_strings (w : world) (s t : string) :
  Matcher.toContain w (Matcher.constructor (VString s)) (VString t) = Returns tt
  <-> exists n, substring n (String.length t) s = t.
Proof.
  unfold Matcher.toContain, Matcher.constructor.
  cbn [_actualValue _shouldMatch indexOf bind].
  destruct (index 0 t s) as [m|] eqn:Hindex; simpl.
  - replace (Z.of_nat m =? -1)%Z with false by (symmetry; apply Z.eqb_neq; lia).
    simpl. split; [|reflexivity]. intros _. exists m.
    now apply index_correct1 with 0.
  - split; [discriminate|]. intros [n Hn]. exfalso.
    destruct t as [|c t'].
    + apply index_correct4 in Hindex. lia.
    + apply (index_correct3 0 n _ _ Hindex); [discriminate|lia|exact Hn].
Qed.

Lemma find_nothing {A : Type} (f : A -> bool) (l : list A) :
  (forall x, f x = false) -> find f l = None.
Proof. intros Hf. induction l as [|x l IH]; simpl; [reflexivity|]. now rewrite Hf. Qed.

(** X14: [toContain(NaN)] fails on every array, also on one that holds [NaN]:
    the search compares with [===]. *)
Theorem toContain_never_finds_NaN (w : world) (l : loc) (len : nat) :
  obj_isArray (heap w l) = true ->
  length_of w (heap w l) = Returns len ->
  Matcher.toContain w (Matcher.constructor (VObject l)) (VNumber NaN)
  = Throws (ContentsMatchError (VObject l) (VNumber NaN) true).
Proof.
  intros Harray Hlen. unfold Matcher.toContain, Matcher.constructor.
  cbn [_actualValue _shouldMatch indexOf]. rewrite Harray, Hlen. cbn [bind].
  rewrite find_nothing; [reflexivity|]. intros [k v]. now destruct v.
Qed.

Lemma toContain_never_finds_NaN_witness :
  obj_isArray (heap edge_world 21) = true
  /\ length_of edge_world (heap edge_world 21) = Returns 3
  /\ object_get edge_world (heap edge_world 21) (index_key 1) = VNumber NaN
  /\ Matcher.toContain edge_world (Matcher.constructor (VObject 21)) (VNumber NaN)
     = Throws (ContentsMatchError (VObject 21) (VNumber NaN) true).
Proof.
  split; [reflexivity|]. split; [reflexivity|]. split; [reflexivity|].
  apply (toContain_never_finds_NaN edge_world 21 3); reflexivity.
Defined.

(** ** Arrays written as literals *)

Lemma index_key_inj (a b : nat) : index_key a = index_key b -> a = b.
Proof.
  unfold index_key. intros H.
  apply DecimalNat.Unsigned.to_uint_inj.
  assert (Some (Nat.to_uint a) = Some (Nat.to_uint b)) as [= ->]; [|reflexivity].
  rewrite <- !NilEmpty.usu. now rewrite H.
Qed.

Lemma index_key_not_length (k : nat) : index_key k <> "length".
Proof.
  unfold index_key. intros H.
  pose proof (NilEmpty.usu (Nat.to_uint k)) as Hk. rewrite H in Hk. discriminate Hk.
Qed.

Lemma find_in_indexed (items : list value) (rest : list (string * property)) :
  forall n k,
    find (fun kp => String.eqb (fst kp) (index_key (n + k)))
         (imap (fun i v => (index_key (n + i), data v)) items ++ rest)
    = match items !! k with
      | Some v => Some (index_key (n + k), data v)
      | None => find (fun kp => String.eqb (fst kp) (index_key (n + k))) rest
      end.
Proof.
  induction items as [|x items IH]; intros n k; [reflexivity|].
  rewrite imap_cons. cbn [app find fst].
  destruct k as [|k].
  - now rewrite String.eqb_refl.
  - replace (String.eqb (index_key (n + 0)) (index_key (n + S k))) with false.
    + rewrite (imap_ext _ (fun i v => (index_key (S n + i), data v))).
      * replace (n + S k) with (S n + k) by lia. apply IH.
      * intros i v _. simpl. now replace (n + S i) with (S (n + i)) by lia.
    + symmetry. apply String.eqb_neq. intros H. apply index_key_inj in H. lia.
Qed.

Lemma find_length_after_indexed (items : list value) (p : property) :
  forall n,
    find (fun kp => String.eqb (fst kp) "length")
         (imap (fun i v => (index_key (n + i), data v)) items ++ [("length", p)])
    = Some ("length", p).
Proof.
  induction items as [|x items IH]; intros n; [reflexivity|].
  rewrite imap_cons. cbn [app find fst].
  replace (String.eqb (index_key (n + 0)) "length") with false
    by (symmetry; apply String.eqb_neq, index_key_not_length).
  rewrite (imap_ext _ (fun i v => (index_key (S n + i), data v))); [apply IH|].
  intros i v _. simpl. now replace (n + S i) with (S (n + i)) by lia.
Qed.

Lemma array_own_index (proto : list loc) (items : list value) (k : nat) (v : value) :
  items !! k = Some v ->
  own_property (array proto items) (index_key k) = Some (data v).
Proof.
  intros Hk. unfold own_property, array. cbn [obj_props].
  rewrite (find_in_indexed items _ 0 k). now rewrite Hk.
Qed.

Lemma array_length_of (w : world) (proto : list loc) (items : list value) :
  length_of w (array proto items) = Returns (length items).
Proof.
  unfold length_of, object_get, find_property, own_property, array. cbn [obj_props].
  rewrite (find_length_after_indexed items _ 0). simpl.
  now rewrite Nat2Z.id.
Qed.

Lemma array_get_length (w : world) (l : loc) (proto : list loc) (items : list value) :
  heap w l = array proto items ->
  Get w (VObject l) "length" = Returns (VNumber (Num (Z.of_nat (length items)))).
Proof.
  intros H. unfold Get. cbn [ToObject bind]. rewrite H.
  unfold object_get, find_property, own_property, array. cbn [obj_props].
  now rewrite (find_length_after_indexed items _ 0).
Qed.

Lemma array_elements_from (w : world) (proto : list loc) (items : list value) :
  forall before,
    flat_map
      (fun k =>
         if object_has w (array proto (before ++ items)) (index_key k)
         then [(k, object_get w (array proto (before ++ items)) (index_key k))]
         else [])
      (seq (length before) (length items))
    = combine (seq (length before) (length items)) items.
Proof.
  induction items as [|x items IH]; intros before; [reflexivity|].
  cbn [length seq flat_map combine].
  assert (Hx : ((before ++ x :: items)%list : list value) !! length before = Some x)
    by now apply list_lookup_middle.
  unfold object_has at 1, object_get at 1, find_property.
  rewrite (array_own_index _ _ _ _ Hx). cbn [app p_value data].
  f_equal.
  specialize (IH (before ++ [x])%list).
  rewrite <- app_assoc, length_app in IH. cbn [app length] in IH.
  now replace (length before + 1) with (S (length before)) in IH by lia.
Qed.

Lemma array_elements (w : world) (proto : list loc) (items : list value) :
  elements w (array proto items) (length items)
  = combine (seq 0 (length items)) items.
Proof. exact (array_elements_from w proto items []). Qed.

Lemma find_in_combine (p : value -> bool) (items : list value) :
  forall n,
    (exists k v, find (fun ke : nat * value => p (snd ke))
                   (combine (seq n (length items)) items) = Some (k, v))
    <-> exists item, In item items /\ p item = true.
Proof.
  induction items as [|x items IH]; intros n; cbn [length seq combine find snd].
  - split; [intros (k & v & H); discriminate H|intros (item & [] & _)].
  - destruct (p x) eqn:Hx.
    + split; [intros _; exists x; split; [now left|exact Hx]|eauto].
    + rewrite (IH (S n)). split.
      * intros (item & Hin & Hp). exists item. split; [now right|exact Hp].
      * intros (item & [<-|Hin] & Hp); [congruence|eauto].
Qed.

(** X15: On an array written as a literal, [toContain] passes exactly when
    some item is strictly equal to the expected content. *)
Theorem toContain_on_an_array (w : world) (l : loc) (proto : list loc)
  (items : list value) (expectedContent : value) :
  heap w l = array proto items ->
  Matcher.toContain w (Matcher.constructor (VObject l)) expectedContent = Returns tt
  <-> exists item, In item items /\ strict_equal expectedContent item = true.
Proof.
  intros Hl. rewrite <- (find_in_combine (strict_equal expectedContent) items 0).
  unfold Matcher.toContain, Matcher.constructor.
  cbn [_actualValue _shouldMatch indexOf]. rewrite Hl.
  cbn [array obj_isArray]. fold (array proto items).
  rewrite array_length_of. cbn [bind]. rewrite array_elements.
  destruct (find _ _) as [[k v]|]; simpl.
  - replace (Z.of_nat k =? -1)%Z with false by (symmetry; apply Z.eqb_neq; lia).
    simpl. split; eauto.
  - split; [discriminate|]. intros (k & v & H). discriminate H.
Qed.

Lemma toContain_on_an_array_witness :
  heap edge_world 21 = array [Array_prototype; Object_prototype] [one; VNumber NaN; two]
  /\ (Matcher.toContain edge_world (Matcher.constructor (VObject 21)) two = Returns tt
      <-> exists item, In item [one; VNumber NaN; two] /\ strict_equal two item = true).
Proof.
  split; [reflexivity|].
  apply (toContain_on_an_array edge_world 21 [Array_prototype; Object_prototype]
           [one; VNumber NaN; two] two).
  reflexivity.
Defined.

(** ** Spies *)

Lemma select_of_nothing (callbackfn : value -> nat -> outcome bool)
  (items : list (nat * value)) (kept : list value) :
  select callbackfn items = Returns kept -> kept <> [] -> items <> [].
Proof. destruct items; simpl; [intros [= <-]; congruence|discriminate]. Qed.

Lemma filter_method_returns (w : world) (receiver : value)
  (callbackfn : value -> nat -> outcome bool) (kept : list value) :
  filter_method w receiver callbackfn = Returns kept ->
  exists l len,
    receiver = VObject l
    /\ length_of w (heap w l) = Returns len
    /\ select callbackfn (elements w (heap w l) len) = Returns kept.
Proof.
  assert (Hother : forall name, @other_method (list value) w receiver name <> Returns kept).
  { intros name. unfold other_method.
    destruct (ToObject w receiver); simpl; try discriminate.
    destruct (object_get w a name); try discriminate.
    destruct (obj_call _); discriminate. }
  unfold filter_method. destruct receiver; try (intros H; destruct (Hother _ H)).
  destruct (obj_isArray _); [|intros H; destruct (Hother _ H)].
  destruct (length_of w (heap w l)) as [len| | |] eqn:Hlen; simpl; try discriminate.
  intros H. exists l, len. repeat split; [exact Hlen|exact H].
Qed.

Lemma length_is_not_zero (w : world) (l : loc) (len : nat) :
  length_of w (heap w l) = Returns len ->
  len <> 0 ->
  exists count,
    Get w (VObject l) "length" = Returns count
    /\ strict_equal count (VNumber (Num 0)) = false.
Proof.
  unfold length_of, Get. cbn [ToObject bind].
  intros Hlen Hpositive. eexists. split; [reflexivity|].
  destruct (object_get w (heap w l) "length") as [| |b|[|z]|s|l']; simpl in *;
    try reflexivity; try discriminate Hlen; injection Hlen as <-;
    try congruence.
  apply Z.eqb_neq. intros ->. now apply Hpositive.
Qed.

Lemma recorded_implies_nonempty (w : world) (field : string) (actual : value)
  (callbackfn : value -> nat -> outcome bool) (calls : value) (kept : list value) :
  Get w actual field = Returns calls ->
  filter_method w calls callbackfn = Returns kept ->
  kept <> [] ->
  exists count,
    Get w calls "length" = Returns count
    /\ strict_equal count (VNumber (Num 0)) = false.
Proof.
  intros _ Hkept Hsome.
  apply filter_method_returns in Hkept as (l & len & -> & Hlen & Hselect).
  apply (length_is_not_zero w l len Hlen).
  intros ->. now apply (select_of_nothing _ _ _ Hselect Hsome).
Qed.

(** X16: When the calls of a spy are held in an array, which carries the
    built-in [filter], [toHaveBeenCalled] passes wherever
    [toHaveBeenCalledWith] passes; so does [toHaveBeenSet] wherever
    [toHaveBeenSetTo] passes, when the set calls are held in an array. *)
Theorem specific_call_implies_some_call (w : world) (actual : value) :
  (forall calls args,
     Get w actual "calls" = Returns calls ->
     Array_isArray w calls = true ->
     Matcher.toHaveBeenCalledWith w (Matcher.constructor actual) args = Returns tt ->
     Matcher.toHaveBeenCalled w (Matcher.constructor actual) = Returns tt)
  /\ (forall setCalls setValue,
        Get w actual "setCalls" = Returns setCalls ->
        Array_isArray w setCalls = true ->
        Matcher.toHaveBeenSetTo w (Matcher.constructor actual) setValue = Returns tt ->
        Matcher.toHaveBeenSet w (Matcher.constructor actual) = Returns tt).
Proof.
  split.
  - intros calls args Hcalls _.
    unfold Matcher.toHaveBeenCalledWith, Matcher.toHaveBeenCalled,
      Matcher.constructor.
    cbn [_actualValue _shouldMatch]. rewrite Hcalls. cbn [bind].
    destruct (filter_method w calls _) as [kept| | |] eqn:Hkept; cbn [bind];
      try discriminate.
    destruct kept as [|x kept]; [discriminate|]. intros _.
    destruct (recorded_implies_nonempty _ _ _ _ _ _ Hcalls Hkept)
      as (count & Hcount & Hzero); [discriminate|].
    rewrite Hcount. cbn [bind]. now rewrite Hzero.
  - intros calls setValue Hcalls _.
    unfold Matcher.toHaveBeenSetTo, Matcher.toHaveBeenSet, Matcher.constructor.
    cbn [_actualValue _shouldMatch]. rewrite Hcalls. cbn [bind].
    destruct (filter_method w calls _) as [kept| | |] eqn:Hkept; cbn [bind];
      try discriminate.
    destruct kept as [|x kept]; [discriminate|]. intros _.
    destruct (recorded_implies_nonempty _ _ _ _ _ _ Hcalls Hkept)
      as (count & Hcount & Hzero); [discriminate|].
    rewrite Hcount. cbn [bind]. now rewrite Hzero.
Qed.

Lemma specific_call_implies_some_call_witness :
  Get spy_world (VObject 20) "calls" = Returns (VObject 21)
  /\ Array_isArray spy_world (VObject 21) = true
  /\ Matcher.toHaveBeenCalledWith spy_world (Matcher.constructor (VObject 20))
       [one; VString "a"] = Returns tt
  /\ Matcher.toHaveBeenCalled spy_world (Matcher.constructor (VObject 20)) = Returns tt.
Proof.
  split; [reflexivity|]. split; [reflexivity|]. split; [reflexivity|].
  apply (proj1 (specific_call_implies_some_call spy_world (VObject 20))
           (VObject 21) [one; VString "a"]); reflexivity.
Defined.

Lemma filter_method_on_array (w : world) (l : loc) (proto : list loc)
  (items : list value) (callbackfn : value -> nat -> outcome bool) :
  heap w l = array proto items ->
  filter_method w (VObject l) callbackfn
  = select callbackfn (combine (seq 0 (length items)) items).
Proof.
  intros H. unfold filter_method. rewrite H.
  cbn [array obj_isArray]. fold (array proto items).
  rewrite array_length_of. cbn [bind]. now rewrite array_elements.
Qed.

Lemma select_pure (p : nat * value -> bool)
  (callbackfn : value -> nat -> outcome bool) (items : list (nat * value)) :
  (forall kv, In kv items -> callbackfn (snd kv) (fst kv) = Returns (p kv)) ->
  select callbackfn items = Returns (map snd (List.filter p items)).
Proof.
  induction items as [|[k v] items IH]; intros Hcb; [reflexivity|].
  cbn [select List.filter].
  pose proof (Hcb (k, v) (or_introl eq_refl)) as Hkv. cbn [fst snd] in Hkv.
  rewrite Hkv. cbn [bind].
  rewrite IH by (intros kv Hin; apply Hcb; now right). cbn [bind].
  now destruct (p (k, v)).
Qed.

Lemma filter_is_shorter {A : Type} (p : A -> bool) (l : list A) :
  length (List.filter p l) <= length l.
Proof.
  induction l as [|x l IH]; simpl; [lia|]. destruct (p x); simpl; lia.
Qed.

Lemma filter_keeps_all {A : Type} (p : A -> bool) (l : list A) :
  length (List.filter p l) = length l <-> forall x, In x l -> p x = true.
Proof.
  induction l as [|x l IH]; simpl; [split; [intros _ y []|reflexivity]|].
  destruct (p x) eqn:Hx; simpl.
  - split.
    + intros [= H] y [<-|Hin]; [exact Hx|now apply IH].
    + intros H. f_equal. apply IH. intros y Hin. apply H. now right.
  - pose proof (filter_is_shorter p l) as Hshort. split; [lia|].
    intros Hall. specialize (Hall x (or_introl eq_refl)). congruence.
Qed.

Lemma in_combine_seq (c : list value) :
  forall n k x,
    In (k, x) (combine (seq n (length c)) c) <-> n <= k /\ c !! (k - n) = Some x.
Proof.
  induction c as [|y c IH]; intros n k x; cbn [length seq combine In].
  - split; [intros []|intros [_ H]; discriminate H].
  - rewrite IH. split.
    + intros [[= <- <-]|[Hle Hk]].
      * split; [lia|]. now rewrite Nat.sub_diag.
      * split; [lia|]. now replace (k - n) with (S (k - S n)) by lia.
    + intros [Hle Hk]. destruct (Nat.eq_dec n k) as [<-|Hne].
      * left. rewrite Nat.sub_diag in Hk. now injection Hk as <-.
      * right. split; [lia|]. now replace (k - n) with (S (k - S n)) in Hk by lia.
Qed.

Lemma arguments_match_same (callArgs args : list value) :
  arguments_match callArgs args = true <-> same_arguments callArgs args.
Proof.
  unfold arguments_match, same_arguments.
  rewrite andb_true_iff, !Nat.eqb_eq.
  assert (Hall : length (combine (seq 0 (length callArgs)) callArgs) = length callArgs).
  { rewrite length_combine, length_seq. lia. }
  split.
  - intros [Hkept Hlen]. apply Forall2_same_length_lookup_2; [exact Hlen|].
    intros i x y Hx Hy.
    assert (Hkept' :
              length (List.filter
                        (fun kv => strict_equal (snd kv) (nth (fst kv) args VUndefined))
                        (combine (seq 0 (length callArgs)) callArgs))
              = length (combine (seq 0 (length callArgs)) callArgs))
      by (rewrite Hall, Hkept; now symmetry).
    pose proof (proj1 (filter_keeps_all _ _) Hkept' (i, x)) as Hi.
    cbn [fst snd] in Hi. rewrite (nth_lookup_Some _ _ _ _ Hy) in Hi.
    apply Hi. apply in_combine_seq. split; [lia|]. now rewrite Nat.sub_0_r.
  - intros Hsame. pose proof (Forall2_length _ _ _ Hsame) as Hlen.
    split; [|exact Hlen].
    transitivity (length (combine (seq 0 (length callArgs)) callArgs)); [|lia].
    apply filter_keeps_all. intros [k x] Hin. cbn [fst snd].
    apply in_combine_seq in Hin as [_ Hk]. rewrite Nat.sub_0_r in Hk.
    destruct (Forall2_lookup_l _ _ _ _ _ Hsame Hk) as (y & Hy & Hxy).
    now rewrite (nth_lookup_Some _ _ _ _ Hy).
Qed.

Lemma call_arguments_callback (w : world) (args : list value) (call : value)
  (callArgs : list value) :
  is_call_with w call callArgs ->
  (callArgs <- Get w call "args" ;;
   same <- filter_method w callArgs
             (fun arg index => Returns (strict_equal arg (nth index args VUndefined))) ;;
   if length same =? length args
   then
     callArgs' <- Get w call "args" ;;
     count <- Get w callArgs' "length" ;;
     Returns (strict_equal count (VNumber (Num (Z.of_nat (length args)))))
   else Returns false) = Returns (arguments_match callArgs args).
Proof.
  intros (argsArray & Hget & l & proto & -> & Hl).
  rewrite Hget. cbn [bind].
  rewrite (filter_method_on_array _ _ _ _ _ Hl).
  rewrite (select_pure
             (fun kv => strict_equal (snd kv) (nth (fst kv) args VUndefined)))
    by reflexivity.
  cbn [bind]. rewrite length_map. unfold arguments_match.
  destruct (_ =? length args); [|reflexivity].
  rewrite (array_get_length _ _ _ _ Hl). cbn [bind strict_equal number_eqb andb].
  f_equal. destruct (Nat.eqb_spec (length callArgs) (length args)) as [->|Hne].
  - apply Z.eqb_refl.
  - apply Z.eqb_neq. lia.
Qed.

Lemma select_calls (w : world) (args : list value) (records : list value)
  (calls : list (list value)) :
  Forall2 (is_call_with w) records calls ->
  forall n,
  exists kept,
    select
      (fun call (_ : nat) =>
         callArgs <- Get w call "args" ;;
         same <- filter_method w callArgs
                   (fun arg index =>
                      Returns (strict_equal arg (nth index args VUndefined))) ;;
         if length same =? length args
         then
           callArgs' <- Get w call "args" ;;
           count <- Get w callArgs' "length" ;;
           Returns (strict_equal count (VNumber (Num (Z.of_nat (length args)))))
         else Returns false)
      (combine (seq n (length records)) records) = Returns kept
    /\ (kept <> [] <-> Exists (fun callArgs => same_arguments callArgs args) calls).
Proof.
  induction 1 as [|record callArgs records calls Hcall Hrest IH]; intros n.
  - exists []. split; [reflexivity|]. split; [congruence|]. intros H. inversion H.
  - destruct (IH (S n)) as (kept & Hkept & Hiff).
    cbn [length seq combine select].
    rewrite (call_arguments_callback _ _ _ _ Hcall). cbn [bind].
    rewrite Hkept. cbn [bind].
    destruct (arguments_match callArgs args) eqn:Hmatch.
    + eexists. split; [reflexivity|]. split; [|discriminate].
      intros _. left. now apply arguments_match_same.
    + exists kept. split; [reflexivity|]. rewrite Hiff. split.
      * intros H. now right.
      * intros H. inversion H as [? ? Hhere|? ? Hlater]; subst; [|exact Hlater].
        apply arguments_match_same in Hhere. congruence.
Qed.

(** X17: On a spy, [toHaveBeenCalled] passes exactly when a call was recorded,
    and [toHaveBeenCalledWith] passes exactly when some recorded call has
    as many arguments as expected, each strictly equal to the expected one
    at its position. *)
Theorem spy_matchers (w : world) (spy : value) (calls : list (list value)) :
  has_recorded w "calls" spy calls ->
  (Matcher.toHaveBeenCalled w (Matcher.constructor spy) = Returns tt <-> calls <> [])
  /\ (forall args,
        Matcher.toHaveBeenCalledWith w (Matcher.constructor spy) args = Returns tt
        <-> Exists (fun callArgs => same_arguments callArgs args) calls).
Proof.
  intros (callsArray & records & Hget & (l & proto & -> & Hl) & Hrecords).
  split.
  - unfold Matcher.toHaveBeenCalled, Matcher.constructor.
    cbn [_actualValue _shouldMatch]. rewrite Hget. cbn [bind].
    rewrite (array_get_length _ _ _ _ Hl). cbn [bind strict_equal number_eqb].
    rewrite (Forall2_length _ _ _ Hrecords).
    destruct calls as [|c calls]; simpl; split; try congruence; discriminate.
  - intros args. unfold Matcher.toHaveBeenCalledWith, Matcher.constructor.
    cbn [_actualValue _shouldMatch]. rewrite Hget. cbn [bind].
    rewrite (filter_method_on_array _ _ _ _ _ Hl).
    destruct (select_calls w args _ _ Hrecords 0) as (kept & -> & Hiff).
    cbn [bind]. rewrite <- Hiff.
    destruct kept; simpl; split; try congruence; discriminate.
Qed.

Lemma spy_matchers_witness :
  has_recorded spy_world "calls" (VObject 20) [[one; VString "a"]; []]
  /\ (Matcher.toHaveBeenCalledWith spy_world (Matcher.constructor (VObject 20)) []
      = Returns tt
      <-> Exists (fun callArgs => same_arguments callArgs [])
            [[one; VString "a"]; []]).
Proof.
  assert (H : has_recorded spy_world "calls" (VObject 20) [[one; VString "a"]; []]).
  { exists (VObject 21), [VObject 22; VObject 24]. split; [reflexivity|]. split.
    - now exists 21, [Array_prototype; Object_prototype].
    - repeat constructor.
      + exists (VObject 23). split; [reflexivity|].
        now exists 23, [Array_prototype; Object_prototype].
      + exists (VObject 25). split; [reflexivity|].
        now exists 25, [Array_prototype; Object_prototype]. }
  split; [exact H|].
  apply (proj2 (spy_matchers spy_world (VObject 20) _ H)).
Defined.

Lemma first_argument_callback (w : world) (setValue call first : value)
  (others : list value) :
  is_call_with w call (first :: others) ->
  (callArgs <- Get w call "args" ;;
   first' <- Get w callArgs (index_key 0) ;;
   Returns (strict_equal first' setValue)) = Returns (strict_equal first setValue).
Proof.
  intros (argsArray & Hget & l & proto & -> & Hl).
  rewrite Hget. cbn [bind Get ToObject]. rewrite Hl.
  unfold object_get, find_property.
  now rewrite (array_own_index proto (first :: others) 0 first).
Qed.

Lemma select_set_calls (w : world) (setValue : value) (records : list value)
  (calls : list (list value)) :
  Forall2 (is_call_with w) records calls ->
  Forall (fun callArgs => callArgs <> []) calls ->
  forall n,
  exists kept,
    select
      (fun call (_ : nat) =>
         callArgs <- Get w call "args" ;;
         first <- Get w callArgs (index_key 0) ;;
         Returns (strict_equal first setValue))
      (combine (seq n (length records)) records) = Returns kept
    /\ (kept <> []
        <-> Exists (fun callArgs => strict_equal (hd VUndefined callArgs) setValue = true)
              calls).
Proof.
  induction 1 as [|record callArgs records calls Hcall Hrest IH]; intros Hsome n.
  - exists []. split; [reflexivity|]. split; [congruence|]. intros H. inversion H.
  - inversion Hsome as [|? ? Hfirst Hothers]; subst.
    destruct (IH Hothers (S n)) as (kept & Hkept & Hiff).
    destruct callArgs as [|first others]; [congruence|].
    cbn [length seq combine select].
    rewrite (first_argument_callback _ _ _ _ _ Hcall). cbn [bind].
    rewrite Hkept. cbn [bind hd].
    destruct (strict_equal first setValue) eqn:Hmatch.
    + eexists. split; [reflexivity|]. split; [|discriminate].
      intros _. now left.
    + exists kept. split; [reflexivity|]. rewrite Hiff. split.
      * intros H. now right.
      * intros H. inversion H as [? ? Hhere|? ? Hlater]; subst; [|exact Hlater].
        cbn [hd] in Hhere. congruence.
Qed.

(** X18: On a property spy, [toHaveBeenSet] passes exactly when a set call was
    recorded, and [toHaveBeenSetTo] passes exactly when the first argument
    of some recorded set call is strictly equal to the expected value. *)
Theorem property_spy_matchers (w : world) (spy : value) (calls : list (list value)) :
  has_recorded w "setCalls" spy calls ->
  Forall (fun callArgs => callArgs <> []) calls ->
  (Matcher.toHaveBeenSet w (Matcher.constructor spy) = Returns tt <-> calls <> [])
  /\ (forall setValue,
        Matcher.toHaveBeenSetTo w (Matcher.constructor spy) setValue = Returns tt
        <-> Exists (fun callArgs => strict_equal (hd VUndefined callArgs) setValue = true)
              calls).
Proof.
  intros (callsArray & records & Hget & (l & proto & -> & Hl) & Hrecords) Hsome.
  split.
  - unfold Matcher.toHaveBeenSet, Matcher.constructor.
    cbn [_actualValue _shouldMatch]. rewrite Hget. cbn [bind].
    rewrite (array_get_length _ _ _ _ Hl). cbn [bind strict_equal number_eqb].
    rewrite (Forall2_length _ _ _ Hrecords).
    destruct calls as [|c calls]; simpl; split; try congruence; discriminate.
  - intros setValue. unfold Matcher.toHaveBeenSetTo, Matcher.constructor.
    cbn [_actualValue _shouldMatch]. rewrite Hget. cbn [bind].
    rewrite (filter_method_on_array _ _ _ _ _ Hl).
    destruct (select_set_calls w setValue _ _ Hrecords Hsome 0) as (kept & -> & Hiff).
    cbn [bind]. rewrite <- Hiff.
    destruct kept; simpl; split; try congruence; discriminate.
Qed.

Lemma property_spy_matchers_witness :
  has_recorded spy_world "setCalls" (VObject 26) [[five]]
  /\ Forall (fun callArgs : list value => callArgs <> []) [[five]]
  /\ (Matcher.toHaveBeenSetTo spy_world (Matcher.constructor (VObject 26)) five
      = Returns tt
      <-> Exists (fun callArgs => strict_equal (hd VUndefined callArgs) five = true)
            [[five]]).
Proof.
  assert (H : has_recorded spy_world "setCalls" (VObject 26) [[five]]).
  { exists (VObject 27), [VObject 28]. split; [reflexivity|]. split.
    - now exists 27, [Array_prototype; Object_prototype].
    - repeat constructor. exists (VObject 29). split; [reflexivity|].
      now exists 29, [Array_prototype; Object_prototype]. }
  assert (H' : Forall (fun callArgs : list value => callArgs <> []) [[five]])
    by (repeat constructor; discriminate).
  split; [exact H|]. split; [exact H'|].
  apply (proj2 (property_spy_matchers spy_world (VObject 26) _ H H')).
Defined.

(** ** Matchers in the store *)



(** ** More on [toEqual] *)

Lemma loose_equal_ends (a b : value) : loose_equal a b <> OutOfFuel.
Proof. destruct a as [| |x|x|x|x], b as [| |y|y|y|y]; simpl; discriminate. Qed.

Lemma compare_properties_modelled (recur : value -> value -> outcome bool)
  (w : world) (A B : value) (keys : list string) :
  (forall a b, recur a b <> Unmodelled) ->
  Matcher.compare_properties recur w A B keys <> Unmodelled.
Proof.
  intros Hrecur. induction keys as [|key rest IH]; simpl; [discriminate|].
  destruct (Get w A key) as [a| | |] eqn:HA; cbn [bind]; try discriminate.
  - destruct (Get w B key) as [b| | |] eqn:HB; cbn [bind]; try discriminate.
    + destruct (negb (strict_equal a b)); [|exact IH].
      destruct (negb (String.eqb (typeof w a) "object")); [discriminate|].
      specialize (Hrecur a b).
      destruct (recur a b) as [[|]| | |]; cbn [bind Bool.eqb]; try discriminate;
        [exact IH|congruence].
    + destruct B; simpl in HB; discriminate HB.
  - destruct A; simpl in HA; discriminate HA.
Qed.

(** The deep comparison never leaves the modelled fragment. *)
Lemma checkObjectsAreDeepEqual_modelled (w : world) (fuel : nat) :
  forall A B, Matcher._checkObjectsAreDeepEqual fuel w A B <> Unmodelled.
Proof.
  induction fuel as [|fuel IH]; intros A B; [discriminate|].
  rewrite checkObjectsAreDeepEqual_step.
  destruct (negb (Bool.eqb (Array_isArray w A) (Array_isArray w B))); [discriminate|].
  destruct (Object_keys w A) as [ka| | |] eqn:HA; cbn [bind]; try discriminate.
  - destruct (Object_keys w B) as [kb| | |] eqn:HB; cbn [bind]; try discriminate.
    + destruct (negb (length ka =? length kb)); [discriminate|].
      now apply compare_properties_modelled.
    + destruct B; simpl in HB; discriminate HB.
  - destruct A; simpl in HA; discriminate HA.
Qed.

(** X20: When the expected value is non-cyclic, the deep comparison returns
    or raises a [TypeError], whatever the actual value is, a cyclic one
    included: the recursion follows the expected value only.  [toEqual]
    then returns or raises as well, whenever its loose comparison needs
    no coercion. *)
Theorem toEqual_ends_on_a_non_cyclic_expected_value (w : world) (expected : value)
  (d fuel : nat) :
  within_depth d w expected = true ->
  d < fuel ->
  (forall actual,
     typeof w expected = "object" ->
     (exists equal,
        Matcher._checkObjectsAreDeepEqual fuel w expected actual = Returns equal)
     \/ (exists e,
           Matcher._checkObjectsAreDeepEqual fuel w expected actual = Throws e
           /\ is_TypeError e = true))
  /\ (forall this loose,
        loose_equal expected (_actualValue this) = Returns loose ->
        Matcher.toEqual fuel w this expected = Returns tt
        \/ exists e, Matcher.toEqual fuel w this expected = Throws e).
Proof.
  intros Hdepth Hfuel.
  assert (Hdeep : forall actual,
            typeof w expected = "object" ->
            (exists equal,
               Matcher._checkObjectsAreDeepEqual fuel w expected actual = Returns equal)
            \/ (exists e,
                  Matcher._checkObjectsAreDeepEqual fuel w expected actual = Throws e
                  /\ is_TypeError e = true)).
  { intros actual Htype.
    pose proof (checkObjectsAreDeepEqual_terminates w d expected actual Htype Hdepth)
      as Hends.
    pose proof (checkObjectsAreDeepEqual_more_fuel w (S d) fuel ltac:(lia) _ _ _
                  eq_refl Hends) as Hsame.
    pose proof (checkObjectsAreDeepEqual_modelled w fuel expected actual) as Hmodelled.
    destruct (Matcher._checkObjectsAreDeepEqual fuel w expected actual)
      as [equal|e| |] eqn:Hrun.
    - left. now exists equal.
    - right. exists e. split; [reflexivity|].
      now apply checkObjectsAreDeepEqual_throws in Hrun.
    - congruence.
    - congruence. }
  split; [exact Hdeep|].
  intros this loose Hloose. unfold Matcher.toEqual. rewrite Hloose. cbn [bind].
  destruct (Bool.eqb (negb loose) (_shouldMatch this)); [|now left].
  destruct (String.eqb (typeof w expected) "object") eqn:Htype; cbn [negb];
    [|right; eexists; reflexivity].
  apply String.eqb_eq in Htype.
  destruct (Hdeep (_actualValue this) Htype) as [[equal ->]|(e & -> & _)]; cbn [bind].
  - destruct (negb (Bool.eqb equal (_shouldMatch this)));
      [right; eexists; reflexivity|now left].
  - right. eexists; reflexivity.
Qed.

Lemma toEqual_ends_on_a_non_cyclic_expected_value_witness :
  within_depth 2 nested_world (VObject 20) = true
  /\ 2 < 3
  /\ typeof nested_world (VObject 20) = "object"
  /\ ((exists equal,
         Matcher._checkObjectsAreDeepEqual 3 nested_world (VObject 20) five
         = Returns equal)
      \/ (exists e,
            Matcher._checkObjectsAreDeepEqual 3 nested_world (VObject 20) five = Throws e
            /\ is_TypeError e = true)).
Proof.
  split; [reflexivity|]. split; [lia|]. split; [reflexivity|].
  apply (proj1 (toEqual_ends_on_a_non_cyclic_expected_value nested_world (VObject 20)
                  2 3 eq_refl ltac:(lia)) five).
  reflexivity.
Defined.

(** X21: Below the top level [toEqual] compares strictly: when it passes on two
    distinct objects, every own enumerable property of the expected object
    that is not of type ["object"] (a primitive, [NaN] included, or a
    function) is strictly equal to the property of the actual object under
    the same key. *)
Theorem toEqual_compares_properties_strictly (fuel : nat) (w : world)
  (actual expected : loc) (key : string) :
  expected <> actual ->
  Matcher.toEqual fuel w (Matcher.constructor (VObject actual)) (VObject expected)
  = Returns tt ->
  In key (own_keys (heap w expected)) ->
  typeof w (object_get w (heap w expected) key) <> "object" ->
  strict_equal (object_get w (heap w expected) key) (object_get w (heap w actual) key)
  = true.
Proof.
  intros Hne Hrun Hkey Htype.
  unfold Matcher.toEqual, Matcher.constructor in Hrun.
  cbn [_actualValue _shouldMatch loose_equal strict_equal bind] in Hrun.
  rewrite (proj2 (Nat.eqb_neq expected actual) Hne) in Hrun.
  cbn [negb Bool.eqb] in Hrun.
  destruct (negb (String.eqb (typeof w (VObject expected)) "object"));
    [discriminate Hrun|].
  destruct (Matcher._checkObjectsAreDeepEqual fuel w (VObject expected) (VObject actual))
    as [[|]| | |] eqn:Hdeep; try discriminate Hrun.
  apply checkObjectsAreDeepEqual_sound in Hdeep.
  inversion Hdeep as [A B oa ob Harr HA HB Hlen Hkeys]; subst.
  injection HA as <-. injection HB as <-.
  specialize (Hkeys key Hkey).
  inversion Hkeys as [a b Hsame|a b Hobject Hrec]; subst; [exact Hsame|contradiction].
Qed.

Lemma toEqual_compares_properties_strictly_witness :
  22 <> 20
  /\ Matcher.toEqual 2 nested_world (Matcher.constructor (VObject 20)) (VObject 22)
     = Returns tt
  /\ In "a" (own_keys (heap nested_world 22))
  /\ typeof nested_world (object_get nested_world (heap nested_world 22) "a") <> "object"
  /\ strict_equal (object_get nested_world (heap nested_world 22) "a")
       (object_get nested_world (heap nested_world 20) "a") = true.
Proof.
  split; [lia|]. split; [reflexivity|]. split; [now left|]. split; [discriminate|].
  apply (toEqual_compares_properties_strictly 2 nested_world 20 22 "a");
    [lia|reflexivity|now left|discriminate].
Defined.

(** Two objects [{a: NaN}] do not pass [toEqual], and neither do two
    objects that hold two distinct functions. *)
Example toEqual_fails_on_NaN_and_on_functions :
  Matcher.toEqual 2 edge_world (Matcher.constructor (VObject 22)) (VObject 23)
  = Throws (EqualMatchError (VObject 22) (VObject 23) true)
  /\ Matcher.toEqual 2 mixed_world (Matcher.constructor (VObject 20)) (VObject 22)
     = Throws (EqualMatchError (VObject 20) (VObject 22) true).
Proof. split; reflexivity. Qed.
